(** * Polyst: the Rotowire injury scraper and the live scan of [polyst.py]

    A shallow embedding of [RotowireScraper.fetch_injuries] and
    [TheEdgeSystem.scan_live_web].

    - A Python [str] is the [string] of its UTF-8 bytes. [strip] cuts
      every character that [str.isspace] holds of, the no-break space and
      the other spaces above 127 included; [upper] maps the letters a to z
      and keeps the rest.
    - The BeautifulSoup tree is an inductive [node]; an element met during
      a traversal is a [located] node, that is the node together with its
      chain of ancestors up to the soup object, because [find_parent] walks
      that chain.
    - The report is a Python [dict]: an insertion-ordered association list
      with unique keys, assignment replacing the value in place.
    - [print], [requests.get] and exceptions are the effects of a small
      writer-and-error monad [M]; what the network and the HTML parser
      answer is a parameter of the development. An exception is either an
      instance of [Exception], which [except Exception] catches, or one
      that is not ([KeyboardInterrupt], [SystemExit]), which only a bare
      [except:] catches. The console takes every line: [print] does not
      raise. *)

From Stdlib Require Import List Bool Arith Lia NArith ZArith.
From Stdlib Require Import Ascii String DecimalString.
Import ListNotations.

Set Warnings "-register-all".

Open Scope string_scope.
Open Scope list_scope.

(* ================================================================== *)
(** ** Python strings *)

Module Str.

(** The UTF-8 bytes of a code point. *)
Definition utf8 (cp : N) : string :=
  if (cp <? 128)%N then
    String (ascii_of_N cp) EmptyString
  else if (cp <? 2048)%N then
    String (ascii_of_N (192 + cp / 64))
      (String (ascii_of_N (128 + cp mod 64)) EmptyString)
  else if (cp <? 65536)%N then
    String (ascii_of_N (224 + cp / 4096))
      (String (ascii_of_N (128 + (cp / 64) mod 64))
         (String (ascii_of_N (128 + cp mod 64)) EmptyString))
  else
    String (ascii_of_N (240 + cp / 262144))
      (String (ascii_of_N (128 + (cp / 4096) mod 64))
         (String (ascii_of_N (128 + (cp / 64) mod 64))
            (String (ascii_of_N (128 + cp mod 64)) EmptyString))).

(** The code points that [str.isspace] holds of, which are those that
    [str.strip] cuts: TAB to CR, FS to US, the space, NEL, the no-break
    space, the Ogham space mark, EN QUAD to HAIR SPACE, the line and the
    paragraph separator, the narrow no-break space, the medium
    mathematical space and the ideographic space. *)
Definition whitespace : list N :=
  [9; 10; 11; 12; 13; 28; 29; 30; 31; 32; 133; 160; 5760;
   8192; 8193; 8194; 8195; 8196; 8197; 8198; 8199; 8200; 8201; 8202;
   8232; 8233; 8239; 8287; 12288]%N.

(** [w] is one whitespace character. *)
Definition isspace (w : string) : bool :=
  existsb (fun cp => String.eqb w (utf8 cp)) whitespace.

Definition upper_char (c : ascii) : ascii :=
  let n := nat_of_ascii c in
  if ((97 <=? n) && (n <=? 122))%nat then ascii_of_nat (n - 32) else c.

(** [s.upper()] on the letters a to z. Bytes above 127 are kept as they
    are: of the characters they spell, [str.upper] turns none into text
    that is made of the letters A to Z only, except for the dotless i, the
    long s, the sharp s and the ligatures ff, fi, fl, ffi, ffl and st,
    which give I, S, SS, FF, FI, FL, FFI, FFL and ST. None of OUT, GTD,
    DOUBTFUL, NBA and NHL holds one of these, so membership in the status
    set and the lookup of the league are those of [str.upper]. *)
Fixpoint upper (s : string) : string :=
  match s with
  | EmptyString => EmptyString
  | String c r => String (upper_char c) (upper r)
  end.

(** [s.lstrip()]: a whitespace character takes one, two or three bytes. *)
Fixpoint lstrip (s : string) : string :=
  match s with
  | EmptyString => EmptyString
  | String a r1 =>
      if isspace (String a EmptyString) then lstrip r1
      else
        match r1 with
        | EmptyString => s
        | String b r2 =>
            if isspace (String a (String b EmptyString)) then lstrip r2
            else
              match r2 with
              | EmptyString => s
              | String c r3 =>
                  if isspace (String a (String b (String c EmptyString)))
                  then lstrip r3
                  else s
              end
        end
  end.

(** [s.rstrip()]: once the tail is cut, what is left is dropped when it is
    one whitespace character and kept otherwise. *)
Fixpoint rstrip (s : string) : string :=
  match s with
  | EmptyString => EmptyString
  | String a r =>
      if isspace (String a (rstrip r)) then EmptyString
      else String a (rstrip r)
  end.

(** [s.strip()] *)
Definition strip (s : string) : string := rstrip (lstrip s).

(** [sub in s] *)
Fixpoint contains (sub s : string) : bool :=
  String.prefix sub s
  || match s with
     | EmptyString => false
     | String _ r => contains sub r
     end.

(** [s.endswith(suf)] *)
Fixpoint endswith (s suf : string) : bool :=
  String.eqb s suf
  || match s with
     | EmptyString => false
     | String _ r => endswith r suf
     end.

(** [x in xs] for a list of strings *)
Definition mem (x : string) (xs : list string) : bool :=
  existsb (String.eqb x) xs.

(** [str(n)] for a length and for an [int] *)
Definition of_nat (n : nat) : string := NilZero.string_of_uint (Nat.to_uint n).
Definition of_Z (z : Z) : string := NilZero.string_of_int (Z.to_int z).

End Str.

(* ================================================================== *)
(** ** The BeautifulSoup tree *)

(** A text node, or an element with its tag name, the tokens of its
    [class] attribute and its children in document order. *)
Inductive node : Type :=
| NavigableString (s : string)
| Tag (name : string) (classes : list string) (contents : list node).

(** A node reached by a traversal, with its ancestors, nearest first. *)
Record located : Type := Loc { here : node; parents : list node }.

(** [n.text]: all the strings below [n], joined. *)
Fixpoint text (n : node) : string :=
  match n with
  | NavigableString s => s
  | Tag _ _ cs => String.concat "" (map text cs)
  end.

(** [n.descendants]: every node strictly below [n], in document order
    (pre-order), each with its ancestor chain. *)
Fixpoint descendants (up : list node) (n : node) : list located :=
  match n with
  | NavigableString _ => []
  | Tag _ _ cs =>
      flat_map (fun c => Loc c (n :: up) :: descendants (n :: up) c) cs
  end.

Definition is_tag (name : string) (n : node) : bool :=
  match n with
  | NavigableString _ => false
  | Tag nm _ _ => String.eqb nm name
  end.

(** The [class_] filter: some token of the element's class attribute is one
    of the wanted classes. *)
Definition has_class (wanted : list string) (n : node) : bool :=
  match n with
  | NavigableString _ => false
  | Tag _ cls _ => existsb (fun c => Str.mem c wanted) cls
  end.

(** [x.find_all(name, class_=wanted)] *)
Definition find_all (name : string) (wanted : list string) (x : located)
  : list located :=
  filter (fun d => is_tag name (here d) && has_class wanted (here d))
         (descendants (parents x) (here x)).

(** [n.find(name)]: the first descendant with that tag name. *)
Definition find (name : string) (n : node) : option node :=
  List.find (is_tag name) (map here (descendants [] n)).

(** [x.find_parent(name)]: the nearest ancestor with that tag name. *)
Definition find_parent (name : string) (x : located) : option node :=
  List.find (is_tag name) (parents x).

(** The soup object: a tag named [[document]] above the parsed nodes. *)
Definition soup_of (nodes : list node) : located :=
  Loc (Tag "[document]" [] nodes) [].

(* ================================================================== *)
(** ** Python dictionaries with string keys *)

Section Dict.
Context {V : Type}.

(** Items in insertion order; the keys are pairwise distinct. *)
Definition dict : Type := list (string * V).

(** [d[k] = v]: a known key keeps its place and takes the new value, a
    new key goes to the end. *)
Fixpoint dict_set (d : dict) (k : string) (v : V) : dict :=
  match d with
  | [] => [(k, v)]
  | (k', v') :: r =>
      if String.eqb k' k then (k, v) :: r else (k', v') :: dict_set r k v
  end.

(** [d.get(k)] *)
Fixpoint dict_get (d : dict) (k : string) : option V :=
  match d with
  | [] => None
  | (k', v') :: r => if String.eqb k' k then Some v' else dict_get r k
  end.

Definition keys (d : dict) : list string := map fst d.
Definition values (d : dict) : list V := map snd d.
End Dict.
Arguments dict V : clear implicits.

(* ================================================================== *)
(** ** Effects: console, network, exceptions *)

(** What is raised: an instance of [Exception], or an exception that is
    not one, such as [KeyboardInterrupt] and [SystemExit]. *)
Inductive exn : Type :=
| Exception (msg : string)
| BaseException (msg : string).

(** [str(e)] *)
Definition str_exn (e : exn) : string :=
  match e with
  | Exception m => m
  | BaseException m => m
  end.

Record response : Type := Response { status_code : Z; response_text : string }.

Inductive event : Type :=
| Printed (line : string)
| Requested (url : string) (headers : list (string * string)) (timeout : Z).

(** A computation writes a trace of events and either raises or returns. *)
Definition M (A : Type) : Type := (list event * (exn + A))%type.

Definition ret {A} (a : A) : M A := ([], inr a).
Definition raise {A} (e : exn) : M A := ([], inl e).
Definition bind {A B} (m : M A) (f : A -> M B) : M B :=
  match m with
  | (t, inl e) => (t, inl e)
  | (t, inr a) => let (t', r) := f a in (t ++ t', r)
  end.

(** [try: body except Exception as e: handler e]: what is not an
    instance of [Exception] goes through. *)
Definition try_except {A} (body : M A) (handler : exn -> M A) : M A :=
  match body with
  | (t, inl (Exception m)) =>
      let (t', r) := handler (Exception m) in (t ++ t', r)
  | (t, inl (BaseException m)) => (t, inl (BaseException m))
  | (t, inr a) => (t, inr a)
  end.

(** [try: body except: handler]: the bare clause catches whatever is
    raised. *)
Definition try_except_all {A} (body : M A) (handler : M A) : M A :=
  match body with
  | (t, inl _) => let (t', r) := handler in (t ++ t', r)
  | (t, inr a) => (t, inr a)
  end.

Definition print (line : string) : M unit := ([Printed line], inr tt).
Definition lift {A} (r : exn + A) : M A := ([], r).

Definition trace {A} (m : M A) : list event := fst m.
Definition outcome {A} (m : M A) : exn + A := snd m.

Notation "x <- m ;; k" := (bind m (fun x => k))
  (at level 61, m at next level, right associativity).
Notation "m ;; k" := (bind m (fun _ => k))
  (at level 61, right associativity).

Definition nl : string := String "010" "".

(* ================================================================== *)
(** ** RotowireScraper *)

Definition headers : list (string * string) :=
  [("User-Agent",
    "Mozilla/5.0 (Windows NT 10.0; Win64; x64) AppleWebKit/537.36 (KHTML, like Gecko) Chrome/91.0.4472.124 Safari/537.36")].

Definition urls : dict string :=
  [("NBA", "https://www.rotowire.com/basketball/nba-lineups.php");
   ("NHL", "https://www.rotowire.com/hockey/nhl-lineups.php")].

Definition statuses : list string := ["OUT"; "GTD"; "DOUBTFUL"].

(** Lines 51-53: the anchors of class [lineup__team], or when there is
    none the divs of class [lineup__team-abbr]. *)
Definition team_divs (box : located) : list located :=
  match find_all "a" ["lineup__team"] box with
  | [] => find_all "div" ["lineup__team-abbr"] box
  | found => found
  end.

(** Lines 50-56: [teams.append(t.text.strip())] for each of them. *)
Definition teams (box : located) : list string :=
  fold_left (fun acc t => acc ++ [Str.strip (text (here t))]) (team_divs box) [].

(** Line 68 *)
Definition status_text (status_tag : located) : string :=
  Str.upper (Str.strip (text (here status_tag))).

(** Line 71: [find_parent("li") or find_parent("div")]; a tag is truthy
    whatever it holds. *)
Definition player_node (status_tag : located) : option node :=
  match find_parent "li" status_tag with
  | Some li => Some li
  | None => find_parent "div" status_tag
  end.

(** Line 73 *)
Definition player_name (pn : node) : string :=
  match find "a" pn with
  | Some a => Str.strip (text a)
  | None => "Unknown"
  end.

(** The f-string of line 74 *)
Definition descriptor (name status : string) : string :=
  name ++ " (" ++ status ++ ")".

(** Lines 68-74: the body of the loop over the status tags. *)
Definition scan_status (acc : list string) (status_tag : located) : list string :=
  if Str.mem (status_text status_tag) statuses then
    match player_node status_tag with
    | Some pn => acc ++ [descriptor (player_name pn) (status_text status_tag)]
    | None => acc
    end
  else acc.

Definition status_tags (box : located) : list located :=
  find_all "span" ["lineup__injuries-status"; "lineup__status"] box.

(** Lines 65-74 *)
Definition injured_players (box : located) : list string :=
  fold_left scan_status (status_tags box) [].

(** Line 77; the length test keeps both indices in range. *)
Definition matchup_key (ts : list string) : string :=
  if (2 <=? List.length ts)%nat
  then nth 0 ts "" ++ " vs " ++ nth 1 ts ""
  else "Unknown Matchup".

(** Lines 46-79: the body of the loop over the lineup boxes. *)
Definition scan_box (injury_report : dict (list string)) (box : located)
  : dict (list string) :=
  match injured_players box with
  | [] => injury_report
  | ips => dict_set injury_report (matchup_key (teams box)) ips
  end.

Definition lineup_boxes (soup : located) : list located :=
  find_all "div" ["lineup__box"] soup.

(** Lines 42-79 on a parsed page. *)
Definition extract (soup : located) : dict (list string) :=
  fold_left scan_box (lineup_boxes soup) [].

(** [for x in xs: body x] *)
Fixpoint for_each {A} (xs : list A) (body : A -> M unit) : M unit :=
  match xs with
  | [] => ret tt
  | x :: r => body x ;; for_each r body
  end.

(** Lines 129-132 *)
Definition show_report (live_injuries : dict (list string)) : M unit :=
  for_each live_injuries (fun mp =>
    print ("⚔️  " ++ fst mp) ;;
    for_each (snd mp) (fun p => print ("   🚨 " ++ p))).

Definition sniper_alert (matchup : string) : string :=
  "👉 **Sniper Alert**: Significant absence in " ++ matchup
    ++ ". Check odds movement.".

(** Line 137: [any("OUT" in p for p in players)] *)
Definition any_out (players : list string) : bool :=
  existsb (Str.contains "OUT") players.

(** Lines 135-138 *)
Definition alpha_analysis (live_injuries : dict (list string)) : M unit :=
  for_each live_injuries (fun mp =>
    if any_out (snd mp) then print (sniper_alert (fst mp)) else ret tt).

(** The messages of [fetch_injuries]. *)
Definition msg_unsupported (league : string) : string :=
  "❌ Error: League " ++ league ++ " not supported.".
Definition msg_connecting (league : string) : string :=
  "📡 Connecting to Rotowire " ++ league ++ " Lineups...".
Definition msg_failed (code : Z) : string :=
  "❌ Connection failed: Status " ++ Str.of_Z code.
Definition msg_scraped (games matchups : nat) : string :=
  "✅ Scraped " ++ Str.of_nat games ++ " games. Found injuries in "
    ++ Str.of_nat matchups ++ " matchups.".
Definition msg_error (e : exn) : string :=
  "❌ Scraping Error: " ++ str_exn e.

Section Program.

(** What [requests.get] answers for a URL, headers and a timeout, and
    what [BeautifulSoup(_, 'html.parser')] makes of a page: either may
    raise. *)
Variable requests_get :
  string -> list (string * string) -> Z -> exn + response.
Variable html_parser : string -> exn + list node.

Definition get (url : string) : M response :=
  ([Requested url headers 10], requests_get url headers 10).

Definition BeautifulSoup (markup : string) : M located :=
  nodes <- lift (html_parser markup) ;; ret (soup_of nodes).

Definition unsupported (league : string) : M (dict (list string)) :=
  print (msg_unsupported league) ;;
  ret [].

(** Lines 34-86 *)
Definition scrape (league url : string) : M (dict (list string)) :=
  print (msg_connecting league) ;;
  try_except
    (response <- get url ;;
     if negb (status_code response =? 200)%Z then
       print (msg_failed (status_code response)) ;;
       ret []
     else
       soup <- BeautifulSoup (response_text response) ;;
       let boxes := lineup_boxes soup in
       let injury_report := extract soup in
       print (msg_scraped (List.length boxes) (List.length injury_report)) ;;
       ret injury_report)
    (fun e =>
       print (msg_error e) ;;
       ret []).

(** [RotowireScraper.fetch_injuries]; [not url] also rejects an empty
    URL. *)
Definition fetch_injuries (league : string) : M (dict (list string)) :=
  match dict_get urls (Str.upper league) with
  | None => unsupported league
  | Some url =>
      if String.eqb url "" then unsupported league else scrape league url
  end.

(** ** TheEdgeSystem *)

(** [TheEdgeSystem.scan_live_web]; the value returned is the new
    [self.live_injuries]. *)
Definition scan_live_web (league : string) : M (dict (list string)) :=
  print (nl ++ "🌐 --- [LIVE WEB SCAN] Protocol Initiated: " ++ league ++ " ---") ;;
  live_injuries <- fetch_injuries league ;;
  match live_injuries with
  | [] =>
      print "⚠️ No games found or scraping blocked. Check internet connection." ;;
      ret live_injuries
  | _ =>
      print (nl ++ "📋 Rotowire Live Injury Report:") ;;
      show_report live_injuries ;;
      print (nl ++ "💡 Alpha Analysis based on Live Data:") ;;
      alpha_analysis live_injuries ;;
      ret live_injuries
  end.

End Program.

(* ================================================================== *)
(** ** Sample pages *)

Module Sample.

Definition span_status (s : string) : node :=
  Tag "span" ["lineup__injuries-status"] [NavigableString s].

Definition player (name status : string) : node :=
  Tag "li" ["lineup__player"]
      [Tag "a" [] [NavigableString name]; span_status status].

Definition team (abbr : string) : node :=
  Tag "a" ["lineup__team"; "is-visit"] [NavigableString (" " ++ abbr ++ nl)].

Definition box (a b : string) (players : list node) : node :=
  Tag "div" ["lineup"; "lineup__box"]
      [Tag "div" ["lineup__top"] [team a; team b];
       Tag "ul" ["lineup__list"] players].

Definition lal_bos : list node :=
  [Tag "html" [] [Tag "body" [] [box "LAL" "BOS" [player "LeBron James" "Out"]]]].

Definition nyr_bos : list node :=
  [box "NYR" "BOS" [player "Igor Shesterkin" "Questionable"]].

Definition empty : located := soup_of [].

(** The box of [lal_bos] and of [nyr_bos] as the traversal reaches it,
    and the status tag of LeBron James and of Igor Shesterkin. *)
Definition lal_bos_box : located := hd empty (lineup_boxes (soup_of lal_bos)).
Definition nyr_bos_box : located := hd empty (lineup_boxes (soup_of nyr_bos)).
Definition lebron_status : located := hd empty (status_tags lal_bos_box).
Definition igor_status : located := hd empty (status_tags nyr_bos_box).

(** A box with a single team and a doubtful player whose name is not in
    an anchor. *)
Definition lone : list node :=
  [Tag "div" ["lineup__box"]
       [Tag "div" ["lineup__team-abbr"] [NavigableString "DEN"];
        Tag "span" ["lineup__status"] [NavigableString " doubtful "]]].
Definition lone_box : located := hd empty (lineup_boxes (soup_of lone)).

(** The no-break space, and a page that pads its texts with it. *)
Definition nbsp : string := Str.utf8 160.
Definition padded : list node :=
  [Tag "div" ["lineup__box"]
       [Tag "a" ["lineup__team"] [NavigableString (nbsp ++ "LAL")];
        Tag "a" ["lineup__team"] [NavigableString ("BOS" ++ nbsp)];
        Tag "ul" []
            [Tag "li" []
                 [Tag "a" [] [NavigableString (nbsp ++ "LeBron James")];
                  span_status (nbsp ++ "Out" ++ nbsp)]]]].
Definition padded_box : located := hd empty (lineup_boxes (soup_of padded)).
Definition padded_status : located := hd empty (status_tags padded_box).

(** A network that answers every request with [code] and a parser that
    reads every page as [nodes]. *)
Definition answers (code : Z) : string -> list (string * string) -> Z -> exn + response :=
  fun _ _ _ => inr (Response code "<html>").
Definition parsed (nodes : list node) : string -> exn + list node :=
  fun _ => inr nodes.
Definition unreachable : string -> list (string * string) -> Z -> exn + response :=
  fun _ _ _ => inl (Exception "Connection refused").
Definition unparsable : string -> exn + list node :=
  fun _ => inl (Exception "bad markup").

End Sample.

(* ================================================================== *)
(** ** Notions used by the statements *)

(** A string made of whitespace characters only; a string that starts,
    or ends, with a whitespace character. *)
Inductive blank : string -> Prop :=
| blank_nil : blank EmptyString
| blank_cons (w s : string) :
    Str.isspace w = true -> blank s -> blank (w ++ s).

Definition starts_blank (s : string) : Prop :=
  exists w r, Str.isspace w = true /\ s = (w ++ r)%string.

Definition ends_blank (s : string) : Prop :=
  exists p w, Str.isspace w = true /\ s = (p ++ w)%string.

(** [core] is [s] with the whitespace at both ends cut, all of it and
    nothing else. *)
Definition trimmed (s core : string) : Prop :=
  exists l r,
    s = (l ++ core ++ r)%string
    /\ blank l /\ blank r
    /\ ~ starts_blank core /\ ~ ends_blank core.

(** The ways through lines 36-86: [requests.get] raises, with an
    instance of [Exception] or with something else; the status is not 200;
    the parser raises, in either way; the page is parsed. *)
Inductive scrape_end
          (requests_get : string -> list (string * string) -> Z -> exn + response)
          (html_parser : string -> exn + list node)
          (league url : string) : Prop :=
| end_raised m :
    requests_get url headers 10%Z = inl (Exception m) ->
    scrape_end requests_get html_parser league url
| end_interrupted m :
    requests_get url headers 10%Z = inl (BaseException m) ->
    scrape_end requests_get html_parser league url
| end_refused r :
    requests_get url headers 10%Z = inr r -> status_code r <> 200%Z ->
    scrape_end requests_get html_parser league url
| end_unparsed r m :
    requests_get url headers 10%Z = inr r -> status_code r = 200%Z ->
    html_parser (response_text r) = inl (Exception m) ->
    scrape_end requests_get html_parser league url
| end_parse_interrupted r m :
    requests_get url headers 10%Z = inr r -> status_code r = 200%Z ->
    html_parser (response_text r) = inl (BaseException m) ->
    scrape_end requests_get html_parser league url
| end_parsed r nodes :
    requests_get url headers 10%Z = inr r -> status_code r = 200%Z ->
    html_parser (response_text r) = inr nodes ->
    scrape_end requests_get html_parser league url.

(** [pn] is the nearest ancestor of [t] with tag [name]; [t] has no such
    ancestor. *)
Definition nearest_parent (name : string) (t : located) (pn : node) : Prop :=
  exists below above,
    parents t = below ++ pn :: above
    /\ is_tag name pn = true
    /\ Forall (fun x => is_tag name x = false) below.

Definition no_parent (name : string) (t : located) : Prop :=
  Forall (fun x => is_tag name x = false) (parents t).

(** The descriptor [p] carries the status [status]. *)
Definition has_status (status p : string) : bool :=
  Str.endswith p (" (" ++ status ++ ")").

(** A line of the console that starts as the alert does. *)
Definition is_alert (ev : event) : bool :=
  match ev with
  | Printed line => String.prefix "👉" line
  | Requested _ _ _ => false
  end.

(** What [show_report] and [alpha_analysis] write. *)
Definition report_lines (live_injuries : dict (list string)) : list event :=
  flat_map (fun mp =>
              Printed ("⚔️  " ++ fst mp)
                :: flat_map (fun p => [Printed ("   🚨 " ++ p)]) (snd mp))
           live_injuries.

Definition alert_lines (live_injuries : dict (list string)) : list event :=
  flat_map (fun mp =>
              if any_out (snd mp) then [Printed (sniper_alert (fst mp))] else [])
           live_injuries.

Module Rematch.
(** Two LAL-BOS boxes on one page. *)
Definition page : list node :=
  [Sample.box "LAL" "BOS" [Sample.player "LeBron James" "Out"];
   Sample.box "LAL" "BOS" [Sample.player "Jayson Tatum" "GTD"]].
Definition first : located := nth 0 (lineup_boxes (soup_of page)) Sample.empty.
Definition second : located := nth 1 (lineup_boxes (soup_of page)) Sample.empty.
End Rematch.

Module Stout.
(** A player whose name, as the page prints it, holds the letters OUT,
    listed as a game-time decision. *)
Definition page : list node :=
  [Sample.box "LAL" "BOS" [Sample.player "T. STOUT" "GTD"]].
Definition run : M (dict (list string)) :=
  scan_live_web (Sample.answers 200) (Sample.parsed page) "NBA".
End Stout.

(* ================================================================== *)
(** ** TheEdgeSystem: the object and the entry point *)

(** The network requests of a trace, in order. *)
Definition is_request (ev : event) : bool :=
  match ev with
  | Printed _ => false
  | Requested _ _ _ => true
  end.

Definition requests (t : list event) : list event := filter is_request t.

(** [if injured_players:] of line 78, as a test on a box. *)
Definition has_injuries (box : located) : bool :=
  match injured_players box with
  | [] => false
  | _ :: _ => true
  end.

(** The fields that [__init__] sets, [self.scraper] apart, which holds
    the two constant tables [headers] and [urls]. *)
Record TheEdgeSystem (DataFrame : Type) : Type := Edge {
  csv_path : string;
  data_2026 : option DataFrame;
  live_injuries : dict (list string)
}.
Arguments Edge {DataFrame} _ _ _.
Arguments csv_path {DataFrame} _.
Arguments data_2026 {DataFrame} _.
Arguments live_injuries {DataFrame} _.

Section Main.

(** The table type of pandas; what lines 103-108 make of the file at a
    path ([pd.read_csv], [fillna] and the two derived columns, any of which
    may raise); and the empty table [pd.DataFrame()]. *)
Variable DataFrame : Type.
Variable read_csv_eff : string -> exn + DataFrame.
Variable empty_frame : DataFrame.
Variable requests_get :
  string -> list (string * string) -> Z -> exn + response.
Variable html_parser : string -> exn + list node.

(** [TheEdgeSystem._load_csv_data]; the bare [except:] catches whatever
    is raised. *)
Definition _load_csv_data (self : TheEdgeSystem DataFrame)
  : M (TheEdgeSystem DataFrame) :=
  try_except_all
    (df <- lift (read_csv_eff (csv_path self)) ;;
     ret (Edge (csv_path self) (Some df) (live_injuries self)))
    (print "⚠️ CSV not found. Running in Web-Only Mode." ;;
     ret (Edge (csv_path self) (Some empty_frame) (live_injuries self))).

(** [TheEdgeSystem.__init__] *)
Definition init (path : string) : M (TheEdgeSystem DataFrame) :=
  _load_csv_data (Edge path None []).

(** [scan_live_web] as a method: line 121 stores the report in
    [self.live_injuries] before anything is looked at. *)
Definition scan (self : TheEdgeSystem DataFrame) (league : string)
  : M (TheEdgeSystem DataFrame) :=
  report <- scan_live_web requests_get html_parser league ;;
  ret (Edge (csv_path self) (data_2026 self) report).

(** Lines 143-153 *)
Definition main : M (TheEdgeSystem DataFrame) :=
  edge <- init "nba_2026_totals.csv" ;;
  edge <- scan edge "NBA" ;;
  print (nl ++ "-------------------" ++ nl) ;;
  scan edge "NHL".

(** What [__init__] prints and the table it ends with. *)
Definition csv_lines (path : string) : list event :=
  match read_csv_eff path with
  | inr _ => []
  | inl _ => [Printed "⚠️ CSV not found. Running in Web-Only Mode."]
  end.

Definition table (path : string) : DataFrame :=
  match read_csv_eff path with
  | inr df => df
  | inl _ => empty_frame
  end.

End Main.

Module Nested.
(** A lineup box that holds another one, each with a player of its own. *)
Definition page : list node :=
  [Tag "div" ["lineup__box"]
       [Sample.team "LAL"; Sample.team "BOS";
        Tag "ul" [] [Sample.player "LeBron James" "Out"];
        Tag "div" ["lineup__box"]
            [Tag "ul" [] [Sample.player "Jayson Tatum" "GTD"]]]].
Definition outer : located := nth 0 (lineup_boxes (soup_of page)) Sample.empty.
Definition inner : located := nth 1 (lineup_boxes (soup_of page)) Sample.empty.
End Nested.

Module Bare.
(** A box whose status tag stands outside any list item. *)
Definition page : list node :=
  [Tag "div" ["lineup__box"]
       [Sample.team "LAL"; Sample.team "BOS"; Sample.span_status "OUT"]].
Definition box : located := nth 0 (lineup_boxes (soup_of page)) Sample.empty.
Definition status : located := nth 0 (status_tags box) Sample.empty.
End Bare.

Module Slate.
(** Three games, the second without injuries. *)
Definition page : list node :=
  [Sample.box "LAL" "BOS" [Sample.player "LeBron James" "Out"];
   Sample.box "NYK" "MIA" [Sample.player "Jalen Brunson" "Probable"];
   Sample.box "DEN" "PHX" [Sample.player "Jamal Murray" "gtd";
                           Sample.player "Devin Booker" " Doubtful "]].

(** A network that knows the NBA page only, and a table that is missing. *)
Definition nba_only : string -> list (string * string) -> Z -> exn + response :=
  fun url _ _ =>
    if String.eqb url "https://www.rotowire.com/basketball/nba-lineups.php"
    then inr (Response 200 "<html>")
    else inr (Response 404 "").
Definition no_csv : string -> exn + unit :=
  fun _ => inl (Exception "No such file").
End Slate.

(* ================================================================== *)
(** ** Strings *)

Section StringFacts.
Implicit Types (a b s sub suf : string).

Lemma length_append a b :
  String.length (a ++ b) = String.length a + String.length b.
Proof. induction a as [| c a IH]; simpl; [reflexivity | now rewrite IH]. Qed.

Lemma append_assoc a b s : ((a ++ b) ++ s = a ++ b ++ s)%string.
Proof. induction a as [| c a IH]; simpl; [reflexivity | now rewrite IH]. Qed.

Lemma append_inv_head s a b : (s ++ a = s ++ b)%string -> a = b.
Proof.
  induction s as [| c s IH]; simpl; [easy |]. intros [= H]. auto.
Qed.

Lemma append_inv_tail a b s : (a ++ s = b ++ s)%string -> a = b.
Proof.
  revert b. induction a as [| c a IH]; intros [| d b] H; simpl in H.
  - reflexivity.
  - apply (f_equal String.length) in H. simpl in H.
    rewrite length_append in H. lia.
  - apply (f_equal String.length) in H. simpl in H.
    rewrite length_append in H. lia.
  - injection H as -> H. now rewrite (IH _ H).
Qed.

Lemma prefix_append sub s : String.prefix sub (sub ++ s) = true.
Proof.
  induction sub as [| c sub IH]; simpl; [now destruct s |].
  now destruct (ascii_dec c c).
Qed.

Lemma contains_prefix sub s :
  String.prefix sub s = true -> Str.contains sub s = true.
Proof. intros H. destruct s; cbn [Str.contains]; now rewrite H. Qed.

Lemma contains_append a sub b : Str.contains sub (a ++ sub ++ b) = true.
Proof.
  induction a as [| c a IH].
  - change ("" ++ sub ++ b)%string with (sub ++ b)%string.
    apply contains_prefix, prefix_append.
  - simpl. rewrite IH. apply orb_true_r.
Qed.

Lemma endswith_append a suf : Str.endswith (a ++ suf) suf = true.
Proof.
  induction a as [| c a IH].
  - change ("" ++ suf)%string with suf.
    destruct suf; cbn [Str.endswith]; now rewrite String.eqb_refl.
  - simpl. rewrite IH. apply orb_true_r.
Qed.

Lemma upper_char_idempotent (c : ascii) :
Str.upper_char (Str.upper_char c) = Str.upper_char c.
Proof. destruct c as [[] [] [] [] [] [] [] []]; reflexivity. Qed.

Lemma upper_idempotent s : Str.upper (Str.upper s) = Str.upper s.
Proof.
induction s as [| c s IH]; simpl; [reflexivity |].
now rewrite upper_char_idempotent, IH.
Qed.

(** A whitespace character takes one, two or three bytes. *)
Lemma isspace_bytes (w : string) :
Str.isspace w = true ->
(exists x : ascii, w = String x "")
\/ (exists x y : ascii, w = String x (String y ""))
\/ (exists x y z : ascii, w = String x (String y (String z ""))).
Proof.
unfold Str.isspace. rewrite existsb_exists. intros (cp & Hin & E).
apply String.eqb_eq in E. subst w. unfold Str.whitespace in Hin.
repeat (destruct Hin as [<- | Hin];
        [first [ left; eexists; reflexivity
               | right; left; do 2 eexists; reflexivity
               | right; right; do 3 eexists; reflexivity ] |]).
destruct Hin.
Qed.

Lemma isspace_not_empty : Str.isspace "" = false.
Proof. reflexivity. Qed.

Lemma append_empty a b : (a ++ b = "")%string -> a = "" /\ b = "".
Proof. destruct a; simpl; [auto | discriminate]. Qed.

(** How a string that starts with whitespace starts. *)
Lemma starts_blank_cases s :
starts_blank s ->
match s with
| EmptyString => False
| String x r1 =>
    Str.isspace (String x "") = true
    \/ match r1 with
       | EmptyString => False
       | String y r2 =>
           Str.isspace (String x (String y "")) = true
           \/ match r2 with
              | EmptyString => False
              | String z _ =>
                  Str.isspace (String x (String y (String z ""))) = true
              end
       end
end.
Proof.
intros (w & r & Hw & ->).
destruct (isspace_bytes w Hw) as [(x & ->) | [(x & y & ->) | (x & y & z & ->)]];
  simpl; auto.
Qed.

(** [lstrip] cuts whitespace, all there is, from the left. *)
Lemma lstrip_split_le (n : nat) :
forall s, String.length s <= n ->
          exists l, s = (l ++ Str.lstrip s)%string
                    /\ blank l /\ ~ starts_blank (Str.lstrip s).
Proof.
induction n as [| n IH]; intros s Hlen.
- destruct s; [| simpl in Hlen; lia].
  exists "". repeat split; [constructor |].
  intros H. exact (starts_blank_cases _ H).
- destruct s as [| a r1].
  { exists "". repeat split; [constructor |].
    intros H. exact (starts_blank_cases _ H). }
  simpl in Hlen. cbn [Str.lstrip].
  destruct (Str.isspace (String a "")) eqn:E1.
  { destruct (IH r1 ltac:(lia)) as (l & Hs & Hl & Hn).
    exists (String a "" ++ l)%string. repeat split; try assumption.
    - simpl. now rewrite <- Hs.
    - now constructor. }
  destruct r1 as [| b r2].
  { exists "". repeat split; [constructor |].
    intros H. apply starts_blank_cases in H. intuition congruence. }
  simpl in Hlen.
  destruct (Str.isspace (String a (String b ""))) eqn:E2.
  { destruct (IH r2 ltac:(lia)) as (l & Hs & Hl & Hn).
    exists (String a (String b "") ++ l)%string.
    repeat split; try assumption.
    - simpl. now rewrite <- Hs.
    - now constructor. }
  destruct r2 as [| c r3].
  { exists "". repeat split; [constructor |].
    intros H. apply starts_blank_cases in H. intuition congruence. }
  simpl in Hlen.
  destruct (Str.isspace (String a (String b (String c "")))) eqn:E3.
  { destruct (IH r3 ltac:(lia)) as (l & Hs & Hl & Hn).
    exists (String a (String b (String c "")) ++ l)%string.
    repeat split; try assumption.
    - simpl. now rewrite <- Hs.
    - now constructor. }
  exists "". repeat split; [constructor |].
  intros H. apply starts_blank_cases in H. intuition congruence.
Qed.

Lemma lstrip_split s :
exists l, s = (l ++ Str.lstrip s)%string
          /\ blank l /\ ~ starts_blank (Str.lstrip s).
Proof. exact (lstrip_split_le (String.length s) s (le_n _)). Qed.

(** [rstrip] does the same from the right. *)
Lemma rstrip_split s :
exists r, s = (Str.rstrip s ++ r)%string
          /\ blank r /\ ~ ends_blank (Str.rstrip s).
Proof.
induction s as [| a s (r & Hs & Hr & Hn)].
- exists "". repeat split; [constructor |].
  intros (p & w & Hw & E). symmetry in E.
  apply append_empty in E. destruct E as [_ ->]. discriminate Hw.
- cbn [Str.rstrip].
  destruct (Str.isspace (String a (Str.rstrip s))) eqn:E.
  + exists (String a (Str.rstrip s) ++ r)%string. repeat split.
    * simpl. now rewrite <- Hs.
    * now constructor.
    * intros (p & w & Hw & Heq). symmetry in Heq.
      apply append_empty in Heq. destruct Heq as [_ ->]. discriminate Hw.
  + exists r. repeat split; try assumption.
    * simpl. now rewrite <- Hs.
    * intros (p & w & Hw & Heq). destruct p as [| a' p]; simpl in Heq.
      -- subst w. congruence.
      -- injection Heq as _ Heq. apply Hn. now exists p, w.
Qed.

Lemma rstrip_start s : ~ starts_blank s -> ~ starts_blank (Str.rstrip s).
Proof.
intros Hn (w & r & Hw & E). apply Hn.
destruct (rstrip_split s) as (t & Hs & _ & _).
exists w, (r ++ t)%string. split; [assumption |].
now rewrite Hs at 1; rewrite E, append_assoc.
Qed.

(** [strip] cuts the whitespace at both ends, all of it and nothing
    else. *)
Lemma strip_trimmed s : trimmed s (Str.strip s).
Proof.
destruct (lstrip_split s) as (l & Hs & Hl & Hstart).
destruct (rstrip_split (Str.lstrip s)) as (r & Hs' & Hr & Hend).
exists l, r. unfold Str.strip. rewrite <- Hs'.
repeat split; try assumption. now apply rstrip_start.
Qed.
End StringFacts.

(* ================================================================== *)
(** ** Lists, dictionaries and trees *)

Section Loops.
Context {A B : Type}.

(** A loop that appends one item per element is a [map]. *)
Lemma fold_append_map (f : A -> B) (l : list A) (acc : list B) :
  fold_left (fun acc x => acc ++ [f x]) l acc = acc ++ map f l.
Proof.
  revert acc. induction l as [| x l IH]; intros acc; simpl.
  - now rewrite app_nil_r.
  - rewrite IH, <- app_assoc. reflexivity.
Qed.

Lemma find_first (p : A -> bool) (l : list A) (x : A) :
  In x l -> p x = true -> exists y, List.find p l = Some y.
Proof.
  induction l as [| a l IH]; simpl; [easy |].
  intros [-> | Hin] Hp.
  - rewrite Hp. eauto.
  - destruct (p a); eauto.
Qed.
End Loops.

Section DictFacts.
Context {V : Type}.
Implicit Types (d : dict V) (k : string) (v : V).

Lemma dict_get_set_same d k v : dict_get (dict_set d k v) k = Some v.
Proof.
  induction d as [| [k' v'] d IH]; simpl.
  - now rewrite String.eqb_refl.
  - destruct (String.eqb k' k) eqn:E; simpl.
    + now rewrite String.eqb_refl.
    + now rewrite E.
Qed.

Lemma dict_get_set_other d k k' v :
  k <> k' -> dict_get (dict_set d k v) k' = dict_get d k'.
Proof.
  intros Hne. induction d as [| [k0 v0] d IH]; simpl.
  - apply String.eqb_neq in Hne. now rewrite Hne.
  - destruct (String.eqb k0 k) eqn:E; simpl.
    + apply String.eqb_eq in E. subst k0.
      apply String.eqb_neq in Hne. now rewrite Hne.
    + destruct (String.eqb k0 k'); auto.
Qed.

Lemma keys_dict_set d k v :
  keys (dict_set d k v) = if Str.mem k (keys d) then keys d else keys d ++ [k].
Proof.
  unfold keys, Str.mem. induction d as [| [k0 v0] d IH]; simpl; [reflexivity |].
  rewrite (String.eqb_sym k k0).
  destruct (String.eqb k0 k) eqn:E; simpl.
  - apply String.eqb_eq in E. now subst.
  - rewrite IH. now destruct (existsb (String.eqb k) (map fst d)).
Qed.

Lemma mem_In (x : string) (xs : list string) : Str.mem x xs = true <-> In x xs.
Proof.
  unfold Str.mem. rewrite existsb_exists. split.
  - intros (y & Hy & E). apply String.eqb_eq in E. now subst.
  - intros H. exists x. split; [assumption | apply String.eqb_refl].
Qed.

Lemma NoDup_keys_dict_set d k v : NoDup (keys d) -> NoDup (keys (dict_set d k v)).
Proof.
  intros Hnd. rewrite keys_dict_set.
  destruct (Str.mem k (keys d)) eqn:E; [assumption |].
  apply NoDup_app; [assumption | repeat constructor; easy |].
  intros x Hx [<- | []].
  apply mem_In in Hx. congruence.
Qed.

Lemma values_dict_set (P : V -> Prop) d k v :
  P v -> Forall P (values d) -> Forall P (values (dict_set d k v)).
Proof.
  intros Hv. unfold values.
  induction d as [| [k0 v0] d IH]; simpl; intros Hd.
  - now constructor.
  - inversion Hd; subst. destruct (String.eqb k0 k); simpl; constructor; auto.
Qed.

(** With distinct keys, the items are exactly what [dict_get] finds. *)
Lemma dict_get_items d k v :
  NoDup (keys d) -> (In (k, v) d <-> dict_get d k = Some v).
Proof.
  unfold keys. induction d as [| [k0 v0] d IH]; simpl; intros Hnd.
  - split; [easy | discriminate].
  - inversion Hnd as [| ? ? Hnotin Hnd']; subst.
    destruct (String.eqb k0 k) eqn:E.
    + apply String.eqb_eq in E. subst k0. split.
      * intros [H | H]; [congruence |].
        exfalso. apply Hnotin. now apply (in_map fst) in H.
      * intros H. left. congruence.
    + apply String.eqb_neq in E. rewrite <- (IH Hnd'). split.
      * intros [H | H]; [congruence | assumption].
      * auto.
Qed.
End DictFacts.

(** Induction on a tree, with the hypothesis on every child. *)
Lemma node_induction (P : node -> Prop) :
  (forall s, P (NavigableString s)) ->
  (forall name classes contents,
      Forall P contents -> P (Tag name classes contents)) ->
  forall n, P n.
Proof.
  intros Hstr Htag. fix IH 1. intros [s | name classes contents].
  - apply Hstr.
  - apply Htag. induction contents as [| c cs IHcs]; constructor.
    + apply IH.
    + exact IHcs.
Qed.

(** Whatever a traversal of [n] reaches has [n] and the ancestors of [n]
    at the top of its chain. *)
Lemma descendants_parents (n : node) :
  forall up d, In d (descendants up n) ->
               exists below, parents d = below ++ n :: up.
Proof.
  induction n as [s | name classes contents IH] using node_induction;
    intros up d Hin; simpl in Hin; [easy |].
  apply in_flat_map in Hin. destruct Hin as (c & Hc & [<- | Hd]).
  - exists []. reflexivity.
  - rewrite Forall_forall in IH.
    destruct (IH c Hc _ _ Hd) as (below & ->).
    exists (below ++ [c]). now rewrite <- app_assoc.
Qed.

Lemma find_all_spec (name : string) (wanted : list string) (x d : located) :
  In d (find_all name wanted x) ->
  is_tag name (here d) = true /\
  has_class wanted (here d) = true /\
  exists below, parents d = below ++ here x :: parents x.
Proof.
  unfold find_all. rewrite filter_In. intros (Hin & Hm).
  apply andb_prop in Hm. destruct Hm as (Ht & Hc).
  repeat split; try assumption.
  eapply descendants_parents; eassumption.
Qed.

(** A status tag found in a lineup box has a [div] above it: the box. *)
Lemma status_tag_has_div (soup box status_tag : located) :
  In box (lineup_boxes soup) -> In status_tag (status_tags box) ->
  exists pn, find_parent "div" status_tag = Some pn.
Proof.
  intros Hbox Htag.
  apply find_all_spec in Hbox. destruct Hbox as (Hdiv & _ & _).
  apply find_all_spec in Htag. destruct Htag as (_ & _ & below & Hp).
  unfold find_parent. apply find_first with (x := here box); [| assumption].
  rewrite Hp. apply in_or_app. right. now left.
Qed.

(** The loop over the status tags, one tag at a time. *)
Lemma scan_status_acc (acc : list string) (t : located) :
  scan_status acc t = acc ++ scan_status [] t.
Proof.
  unfold scan_status.
  destruct (Str.mem (status_text t) statuses); [| now rewrite app_nil_r].
  destruct (player_node t); [reflexivity | now rewrite app_nil_r].
Qed.

Lemma fold_scan_status (l : list located) (acc : list string) :
  fold_left scan_status l acc = acc ++ flat_map (scan_status []) l.
Proof.
  revert acc. induction l as [| t l IH]; intros acc; simpl.
  - now rewrite app_nil_r.
  - rewrite IH, (scan_status_acc acc t), <- app_assoc. reflexivity.
Qed.

Lemma injured_players_flat_map (box : located) :
  injured_players box = flat_map (scan_status []) (status_tags box).
Proof. unfold injured_players. now rewrite fold_scan_status. Qed.

(* ================================================================== *)
(** ** The four ways through [fetch_injuries] *)

Section Paths.
Variable requests_get :
  string -> list (string * string) -> Z -> exn + response.
Variable html_parser : string -> exn + list node.

Lemma scrape_raised league url m :
  requests_get url headers 10 = inl (Exception m) ->
  scrape requests_get html_parser league url
  = ([Printed (msg_connecting league); Requested url headers 10;
      Printed (msg_error (Exception m))], inr []).
Proof.
  intros H. unfold scrape, get, try_except, bind, print, ret.
  rewrite H. reflexivity.
Qed.

Lemma scrape_interrupted league url m :
  requests_get url headers 10 = inl (BaseException m) ->
  scrape requests_get html_parser league url
  = ([Printed (msg_connecting league); Requested url headers 10],
     inl (BaseException m)).
Proof.
  intros H. unfold scrape, get, try_except, bind, print, ret.
  rewrite H. reflexivity.
Qed.

Lemma scrape_refused league url r :
  requests_get url headers 10 = inr r ->
  status_code r <> 200%Z ->
  scrape requests_get html_parser league url
  = ([Printed (msg_connecting league); Requested url headers 10;
      Printed (msg_failed (status_code r))], inr []).
Proof.
  intros H Hc. unfold scrape, get, try_except, bind, print, ret.
  rewrite H. apply Z.eqb_neq in Hc. rewrite Hc. reflexivity.
Qed.

Lemma scrape_unparsed league url r m :
  requests_get url headers 10 = inr r ->
  status_code r = 200%Z ->
  html_parser (response_text r) = inl (Exception m) ->
  scrape requests_get html_parser league url
  = ([Printed (msg_connecting league); Requested url headers 10;
      Printed (msg_error (Exception m))], inr []).
Proof.
  intros H Hc Hp.
  unfold scrape, get, BeautifulSoup, lift, try_except, bind, print, ret.
  rewrite H, Hc, Hp. reflexivity.
Qed.

Lemma scrape_parse_interrupted league url r m :
  requests_get url headers 10 = inr r ->
  status_code r = 200%Z ->
  html_parser (response_text r) = inl (BaseException m) ->
  scrape requests_get html_parser league url
  = ([Printed (msg_connecting league); Requested url headers 10],
     inl (BaseException m)).
Proof.
  intros H Hc Hp.
  unfold scrape, get, BeautifulSoup, lift, try_except, bind, print, ret.
  rewrite H, Hc, Hp. reflexivity.
Qed.

Lemma scrape_parsed league url r nodes :
  requests_get url headers 10 = inr r ->
  status_code r = 200%Z ->
  html_parser (response_text r) = inr nodes ->
  scrape requests_get html_parser league url
  = ([Printed (msg_connecting league); Requested url headers 10;
      Printed (msg_scraped (List.length (lineup_boxes (soup_of nodes)))
                           (List.length (extract (soup_of nodes))))],
     inr (extract (soup_of nodes))).
Proof.
  intros H Hc Hp.
  unfold scrape, get, BeautifulSoup, lift, try_except, bind, print, ret.
  rewrite H, Hc, Hp. reflexivity.
Qed.

Lemma scrape_ends league url :
  scrape_end requests_get html_parser league url.
Proof.
  destruct (requests_get url headers 10) as [[m | m] | r] eqn:H.
  - now apply end_raised with m.
  - now apply end_interrupted with m.
  - destruct (Z.eq_dec (status_code r) 200) as [Hc | Hc].
    + destruct (html_parser (response_text r)) as [[m | m] | nodes] eqn:Hp.
      * now apply end_unparsed with r m.
      * now apply end_parse_interrupted with r m.
      * now apply end_parsed with r nodes.
    + now apply end_refused with r.
Qed.

(** [scrape] returns the empty report or the report of a parsed page, or
    lets through an exception that is not an instance of [Exception]. *)
Lemma scrape_outcome league url :
  outcome (scrape requests_get html_parser league url) = inr []
  \/ (exists nodes, outcome (scrape requests_get html_parser league url)
                    = inr (extract (soup_of nodes)))
  \/ (exists m, outcome (scrape requests_get html_parser league url)
                = inl (BaseException m)).
Proof.
  destruct (scrape_ends league url)
    as [m H | m H | r H Hc | r m H Hc Hp | r m H Hc Hp | r nodes H Hc Hp].
  - left. now rewrite (scrape_raised _ _ _ H).
  - right. right. exists m. now rewrite (scrape_interrupted _ _ _ H).
  - left. now rewrite (scrape_refused _ _ _ H Hc).
  - left. now rewrite (scrape_unparsed _ _ _ _ H Hc Hp).
  - right. right. exists m. now rewrite (scrape_parse_interrupted _ _ _ _ H Hc Hp).
  - right. left. exists nodes. now rewrite (scrape_parsed _ _ _ _ H Hc Hp).
Qed.

Lemma fetch_injuries_outcome league :
  outcome (fetch_injuries requests_get html_parser league) = inr []
  \/ (exists nodes, outcome (fetch_injuries requests_get html_parser league)
                    = inr (extract (soup_of nodes)))
  \/ (exists m, outcome (fetch_injuries requests_get html_parser league)
                = inl (BaseException m)).
Proof.
  unfold fetch_injuries.
  destruct (dict_get urls (Str.upper league)) as [url |]; [| now left].
  destruct (String.eqb url ""); [now left | apply scrape_outcome].
Qed.
Lemma fetch_injuries_returned league report :
  outcome (fetch_injuries requests_get html_parser league) = inr report ->
  report = [] \/ exists nodes, report = extract (soup_of nodes).
Proof.
  intros H. destruct (fetch_injuries_outcome league)
    as [E | [(nodes & E) | (m & E)]]; rewrite E in H.
  - injection H as <-. now left.
  - injection H as <-. right. now exists nodes.
  - discriminate H.
Qed.
End Paths.

(* ================================================================== *)
(** ** The loop over the lineup boxes *)

Lemma matchup_key_two (a b : string) (rest : list string) :
  matchup_key (a :: b :: rest) = (a ++ " vs " ++ b)%string.
Proof. reflexivity. Qed.

Lemma matchup_key_few (ts : list string) :
  List.length ts < 2 -> matchup_key ts = "Unknown Matchup".
Proof.
  intros H. unfold matchup_key.
  destruct (Nat.leb_spec 2 (List.length ts)); [lia | reflexivity].
Qed.

Lemma scan_box_injured (report : dict (list string)) (box : located) :
  injured_players box <> [] ->
  scan_box report box
  = dict_set report (matchup_key (teams box)) (injured_players box).
Proof.
  intros H. unfold scan_box. now destruct (injured_players box).
Qed.

Lemma scan_box_healthy (report : dict (list string)) (box : located) :
  injured_players box = [] -> scan_box report box = report.
Proof. intros H. unfold scan_box. now rewrite H. Qed.

Lemma flat_map_filter {A B} (f : A -> list B) (q : A -> bool) (l : list A) :
  (forall x, q x = false -> f x = []) ->
  flat_map f l = flat_map f (filter q l).
Proof.
  intros H. induction l as [| x l IH]; simpl; [reflexivity |].
  destruct (q x) eqn:E; simpl.
  - now rewrite IH.
  - now rewrite (H x E), IH.
Qed.

Lemma scan_status_outside (acc : list string) (t : located) :
  Str.mem (status_text t) statuses = false -> scan_status acc t = acc.
Proof. intros H. unfold scan_status. now rewrite H. Qed.

(** Both invariants of the report: distinct keys, no empty list. *)
Lemma fold_scan_box_invariant (boxes : list located) (report : dict (list string)) :
  NoDup (keys report) /\ Forall (fun players => players <> []) (values report) ->
  NoDup (keys (fold_left scan_box boxes report)) /\
  Forall (fun players => players <> []) (values (fold_left scan_box boxes report)).
Proof.
  revert report. induction boxes as [| box boxes IH]; intros report [Hk Hv];
    simpl; [now split |].
  apply IH. destruct (injured_players box) as [| p ps] eqn:E.
  - rewrite (scan_box_healthy _ _ E). now split.
  - rewrite scan_box_injured, E by (rewrite E; discriminate). split.
    + now apply NoDup_keys_dict_set.
    + apply (values_dict_set (fun players => players <> [])); [discriminate | assumption].
Qed.

Lemma extract_invariant (soup : located) :
  NoDup (keys (extract soup)) /\
  Forall (fun players => players <> []) (values (extract soup)).
Proof. apply fold_scan_box_invariant. split; constructor. Qed.

(** The two pages of the design document: one injury under its matchup, and
    a status outside the set, which leaves no key at all. *)
Example lal_bos_report :
  extract (soup_of Sample.lal_bos) = [("LAL vs BOS", ["LeBron James (OUT)"])].
Proof. reflexivity. Qed.

Example nyr_bos_report : extract (soup_of Sample.nyr_bos) = [].
Proof. reflexivity. Qed.

(** No-break spaces around the texts are cut as [str.strip] cuts them. *)
Example padded_report :
  extract (soup_of Sample.padded) = [("LAL vs BOS", ["LeBron James (OUT)"])].
Proof. reflexivity. Qed.

(* ================================================================== *)
(** ** The matchup label *)

(** C1: a box with at least one qualifying injury is written to the
    report under the key [<first team> vs <second team>], made of the first
    two resolved identifiers, when two or more were resolved, and under
    [Unknown Matchup] when fewer than two were; the value found under that
    key is then the injury list of the box. *)
Theorem matchup_key_inserted (report : dict (list string)) (box : located) :
  injured_players box <> [] ->
  (forall a b rest,
      teams box = a :: b :: rest ->
      scan_box report box
      = dict_set report (a ++ " vs " ++ b)%string (injured_players box)
      /\ dict_get (scan_box report box) (a ++ " vs " ++ b)%string
         = Some (injured_players box))
  /\ (List.length (teams box) < 2 ->
      scan_box report box
      = dict_set report "Unknown Matchup" (injured_players box)
      /\ dict_get (scan_box report box) "Unknown Matchup"
         = Some (injured_players box)).
Proof.
  intros Hinj. rewrite (scan_box_injured report box Hinj). split.
  - intros a b rest Ht. rewrite Ht, matchup_key_two.
    split; [reflexivity | apply dict_get_set_same].
  - intros Hlen. rewrite (matchup_key_few _ Hlen).
    split; [reflexivity | apply dict_get_set_same].
Qed.

Lemma matchup_key_inserted_witness :
  scan_box [] Sample.lal_bos_box = [("LAL vs BOS", ["LeBron James (OUT)"])]
  /\ scan_box [] Sample.lone_box = [("Unknown Matchup", ["Unknown (DOUBTFUL)"])].
Proof.
  split.
  - assert (Hinj : injured_players Sample.lal_bos_box <> [])
      by (vm_compute; discriminate).
    destruct (matchup_key_inserted [] Sample.lal_bos_box Hinj) as [Htwo _].
    destruct (Htwo "LAL" "BOS" [] eq_refl) as [-> _]. reflexivity.
  - assert (Hinj : injured_players Sample.lone_box <> [])
      by (vm_compute; discriminate).
    destruct (matchup_key_inserted [] Sample.lone_box Hinj) as [_ Hfew].
    assert (Hlen : List.length (teams Sample.lone_box) < 2)
      by (vm_compute; lia).
    destruct (Hfew Hlen) as [-> _]. reflexivity.
Defined.

(* ================================================================== *)
(** ** The status filter *)

(** C2: the text of a status tag is stripped and uppercased; a tag whose
    normalized text is not OUT, GTD or DOUBTFUL leaves the injury list as it
    was, a tag that changes the list has its normalized text in that set, and
    the injury list of a box is made by the qualifying tags alone, every
    entry carrying one of the three statuses. The normalized text is the
    uppercased core of the tag's text, what is left once the whitespace at
    both ends is cut. *)
Theorem status_filter :
  (forall acc t,
      ~ In (Str.upper (Str.strip (text (here t)))) ["OUT"; "GTD"; "DOUBTFUL"] ->
      scan_status acc t = acc)
  /\ (forall acc t,
         scan_status acc t <> acc ->
         In (Str.upper (Str.strip (text (here t)))) ["OUT"; "GTD"; "DOUBTFUL"])
  /\ (forall box,
         injured_players box
         = flat_map (scan_status [])
             (filter (fun t => Str.mem (Str.upper (Str.strip (text (here t))))
                                       ["OUT"; "GTD"; "DOUBTFUL"])
                     (status_tags box)))
  /\ (forall box p,
         In p (injured_players box) ->
         exists name status,
           In status ["OUT"; "GTD"; "DOUBTFUL"] /\ p = descriptor name status)
  /\ (forall t,
         exists core,
           trimmed (text (here t)) core /\ status_text t = Str.upper core).
Proof.
  assert (Hout : forall acc t,
             ~ In (Str.upper (Str.strip (text (here t)))) ["OUT"; "GTD"; "DOUBTFUL"] ->
             scan_status acc t = acc).
  { intros acc t Hn. apply scan_status_outside.
    destruct (Str.mem (status_text t) statuses) eqn:E; [| reflexivity].
    apply mem_In in E. contradiction. }
  repeat split.
  - exact Hout.
  - intros acc t Hch.
    destruct (in_dec string_dec (Str.upper (Str.strip (text (here t))))
                     ["OUT"; "GTD"; "DOUBTFUL"]) as [Hin | Hn];
      [assumption | now rewrite (Hout acc t Hn) in Hch].
  - intros box. rewrite injured_players_flat_map.
    apply flat_map_filter. intros t E. now apply scan_status_outside.
  - intros box p. rewrite injured_players_flat_map, in_flat_map.
    intros (t & _ & Hp). unfold scan_status in Hp.
    destruct (Str.mem (status_text t) statuses) eqn:E; [| easy].
    destruct (player_node t) as [pn |]; [| easy].
    destruct Hp as [<- | []].
    exists (player_name pn), (status_text t). split; [| reflexivity].
    now apply mem_In in E.
  - intros t. exists (Str.strip (text (here t))).
    split; [apply strip_trimmed | reflexivity].
Qed.

Lemma status_filter_witness :
  Str.upper (Str.strip (text (here Sample.igor_status))) = "QUESTIONABLE"
  /\ scan_status ["LeBron James (OUT)"] Sample.igor_status = ["LeBron James (OUT)"].
Proof.
  split; [reflexivity |].
  apply (proj1 status_filter). vm_compute.
  intros [H | [H | [H | []]]]; discriminate H.
Defined.

(* ================================================================== *)
(** ** Boxes without injuries *)

(** C3: a box whose injury list is empty after the status filter leaves
    the report as it was, so no key is written for it; and every value of
    the mapping that [fetch_injuries] returns is a non-empty list. *)
Theorem healthy_box_not_reported
  (requests_get : string -> list (string * string) -> Z -> exn + response)
  (html_parser : string -> exn + list node) :
  (forall report box,
      injured_players box = [] ->
      scan_box report box = report
      /\ keys (scan_box report box) = keys report)
  /\ (forall league report,
         outcome (fetch_injuries requests_get html_parser league) = inr report ->
         Forall (fun players => players <> []) (values report)).
Proof.
  split.
  - intros report box H. now rewrite (scan_box_healthy report box H).
  - intros league report H.
    destruct (fetch_injuries_returned requests_get html_parser league report H)
      as [-> | (nodes & ->)].
    + constructor.
    + apply extract_invariant.
Qed.

Lemma healthy_box_not_reported_witness :
  scan_box [("LAL vs BOS", ["LeBron James (OUT)"])] Sample.nyr_bos_box
  = [("LAL vs BOS", ["LeBron James (OUT)"])]
  /\ Forall (fun players : list string => players <> [])
            (values [("LAL vs BOS", ["LeBron James (OUT)"])]).
Proof.
  split.
  - apply (proj1 (healthy_box_not_reported
                    (Sample.answers 200) (Sample.parsed Sample.lal_bos))).
    reflexivity.
  - apply (proj2 (healthy_box_not_reported
                    (Sample.answers 200) (Sample.parsed Sample.lal_bos)) "NBA").
    reflexivity.
Defined.

(* ================================================================== *)
(** ** The player of a status tag *)

Lemma find_parent_nearest (name : string) (t : located) (pn : node) :
  find_parent name t = Some pn -> nearest_parent name t pn.
Proof.
  unfold find_parent, nearest_parent.
  induction (parents t) as [| x l IH]; simpl; [discriminate |].
  destruct (is_tag name x) eqn:E.
  - intros [= <-]. exists [], l. repeat split; [assumption | constructor].
  - intros H. destruct (IH H) as (below & above & -> & Hp & Hb).
    exists (x :: below), above. repeat split; [assumption | now constructor].
Qed.

Lemma find_parent_none (name : string) (t : located) :
  find_parent name t = None -> no_parent name t.
Proof.
  unfold find_parent, no_parent.
  induction (parents t) as [| x l IH]; simpl; [constructor |].
  destruct (is_tag name x) eqn:E; [discriminate |].
  intros H. constructor; auto.
Qed.

(** The loop body has no [else] for a tag without [li] and [div] ancestor:
    such a tag would add nothing. [status_tag_has_div] shows that no tag of
    a lineup box is in that case. *)
Remark scan_status_orphan (acc : list string) (t : located) :
  find_parent "li" t = None -> find_parent "div" t = None ->
  scan_status acc t = acc.
Proof.
  intros Hli Hdiv. unfold scan_status, player_node. rewrite Hli, Hdiv.
  now destruct (Str.mem (status_text t) statuses).
Qed.

(** C4: a status tag of a lineup box whose normalized text is OUT, GTD or
    DOUBTFUL always appends exactly one descriptor [<name> (<STATUS>)].
    The name is read in the nearest [li] ancestor, or in the nearest [div]
    ancestor when the tag has no [li] ancestor; one of the two always
    exists, the box being a [div]. It is the text of the first anchor of
    that ancestor with the whitespace at both ends cut, and [Unknown] when
    the ancestor holds no anchor; the status is the uppercased text of the
    tag, trimmed the same way. *)
Theorem qualifying_status_contributes
  (soup box t : located) (acc : list string) :
  In box (lineup_boxes soup) ->
  In t (status_tags box) ->
  In (status_text t) ["OUT"; "GTD"; "DOUBTFUL"] ->
  exists pn,
    (nearest_parent "li" t pn
     \/ (no_parent "li" t /\ nearest_parent "div" t pn))
    /\ player_node t = Some pn
    /\ (forall a, find "a" pn = Some a ->
                  player_name pn = Str.strip (text a)
                  /\ trimmed (text a) (player_name pn))
    /\ (find "a" pn = None -> player_name pn = "Unknown")
    /\ (exists core,
           trimmed (text (here t)) core /\ status_text t = Str.upper core)
    /\ scan_status acc t
       = acc ++ [descriptor (player_name pn) (status_text t)].
Proof.
  intros Hbox Ht Hq. apply mem_In in Hq.
  destruct (status_tag_has_div soup box t Hbox Ht) as (dv & Hdiv).
  assert (Hpn : exists pn,
             player_node t = Some pn
             /\ (nearest_parent "li" t pn
                 \/ (no_parent "li" t /\ nearest_parent "div" t pn))).
  { unfold player_node. destruct (find_parent "li" t) as [li |] eqn:Hli.
    - exists li. split; [reflexivity |]. left. now apply find_parent_nearest.
    - exists dv. split; [assumption |]. right. split.
      + now apply find_parent_none.
      + now apply find_parent_nearest. }
  destruct Hpn as (pn & Hnode & Hnear). exists pn.
  split; [exact Hnear |]. split; [exact Hnode |]. split; [| split; [| split]].
  - intros a Ha. unfold player_name. rewrite Ha.
    split; [reflexivity | apply strip_trimmed].
  - intros Ha. unfold player_name. now rewrite Ha.
  - exists (Str.strip (text (here t))).
    split; [apply strip_trimmed | reflexivity].
  - unfold scan_status. fold statuses in Hq. now rewrite Hq, Hnode.
Qed.

Lemma qualifying_status_contributes_witness :
  (exists pn,
      player_node Sample.lebron_status = Some pn
      /\ scan_status [] Sample.lebron_status = ["LeBron James (OUT)"])
  /\ scan_status [] Sample.padded_status = ["LeBron James (OUT)"].
Proof.
  split.
  - assert (Hbox : In Sample.lal_bos_box (lineup_boxes (soup_of Sample.lal_bos)))
      by (vm_compute; left; reflexivity).
    assert (Ht : In Sample.lebron_status (status_tags Sample.lal_bos_box))
      by (vm_compute; left; reflexivity).
    assert (Hq : In (status_text Sample.lebron_status) ["OUT"; "GTD"; "DOUBTFUL"])
      by (vm_compute; left; reflexivity).
    destruct (qualifying_status_contributes
                (soup_of Sample.lal_bos) Sample.lal_bos_box Sample.lebron_status
                [] Hbox Ht Hq) as (pn & _ & Hnode & _ & _ & _ & Hscan).
    exists pn. split; [assumption |].
    rewrite Hscan. vm_compute in Hnode. injection Hnode as <-. reflexivity.
  - assert (Hbox : In Sample.padded_box (lineup_boxes (soup_of Sample.padded)))
      by (vm_compute; left; reflexivity).
    assert (Ht : In Sample.padded_status (status_tags Sample.padded_box))
      by (vm_compute; left; reflexivity).
    assert (Hq : In (status_text Sample.padded_status) ["OUT"; "GTD"; "DOUBTFUL"])
      by (vm_compute; left; reflexivity).
    destruct (qualifying_status_contributes
                (soup_of Sample.padded) Sample.padded_box Sample.padded_status
                [] Hbox Ht Hq) as (pn & _ & Hnode & _ & _ & _ & Hscan).
    rewrite Hscan. vm_compute in Hnode. injection Hnode as <-. reflexivity.
Defined.

(* ================================================================== *)
(** ** The team selectors *)

Lemma map_strip_trimmed (l : list located) :
  Forall2 (fun id t => trimmed (text (here t)) id)
          (map (fun t => Str.strip (text (here t))) l) l.
Proof.
  induction l as [| t l IH]; simpl; constructor;
    [apply strip_trimmed | exact IH].
Qed.

(** C8: the teams of a box are, in document order, the texts of its
    anchors of class [lineup__team] with the whitespace at both ends cut;
    its divs of class [lineup__team-abbr] are used when, and only when, it
    has no such anchor. *)
Theorem team_selectors (box : located) :
  let primary := find_all "a" ["lineup__team"] box in
  let secondary := find_all "div" ["lineup__team-abbr"] box in
  (primary <> [] ->
   teams box = map (fun t => Str.strip (text (here t))) primary
   /\ Forall2 (fun id t => trimmed (text (here t)) id) (teams box) primary)
  /\ (primary = [] ->
      teams box = map (fun t => Str.strip (text (here t))) secondary
      /\ Forall2 (fun id t => trimmed (text (here t)) id)
                 (teams box) secondary).
Proof.
  intros primary secondary.
  assert (Hteams : teams box
                   = map (fun t => Str.strip (text (here t))) (team_divs box))
    by (unfold teams; now rewrite fold_append_map).
  rewrite Hteams. unfold team_divs. fold primary. fold secondary. split.
  - intros Hne. destruct primary; [contradiction |].
    split; [reflexivity | apply map_strip_trimmed].
  - intros ->. split; [reflexivity | apply map_strip_trimmed].
Qed.

Lemma team_selectors_witness :
  teams Sample.lal_bos_box = ["LAL"; "BOS"]
  /\ teams Sample.lone_box = ["DEN"]
  /\ teams Sample.padded_box = ["LAL"; "BOS"].
Proof.
  split; [| split].
  - destruct (proj1 (team_selectors Sample.lal_bos_box)) as [-> _].
    + vm_compute. discriminate.
    + reflexivity.
  - destruct (proj2 (team_selectors Sample.lone_box)) as [-> _].
    + reflexivity.
    + reflexivity.
  - destruct (proj1 (team_selectors Sample.padded_box)) as [-> _].
    + vm_compute. discriminate.
    + reflexivity.
Defined.

(* ================================================================== *)
(** ** Failures of the fetch *)

Lemma urls_supported (k url : string) :
  dict_get urls k = Some url ->
  (k = "NBA" \/ k = "NHL") /\ String.eqb url "" = false.
Proof.
  unfold urls, dict_get.
  destruct (String.eqb_spec "NBA" k) as [<- | _].
  - intros [= <-]. split; [now left | reflexivity].
  - destruct (String.eqb_spec "NHL" k) as [<- | _]; [| discriminate].
    intros [= <-]. split; [now right | reflexivity].
Qed.

Section Fetch.
Variable requests_get :
  string -> list (string * string) -> Z -> exn + response.
Variable html_parser : string -> exn + list node.

Lemma fetch_injuries_supported (league url : string) :
  dict_get urls (Str.upper league) = Some url ->
  fetch_injuries requests_get html_parser league
  = scrape requests_get html_parser league url.
Proof.
  intros H. unfold fetch_injuries. rewrite H.
  now rewrite (proj2 (urls_supported _ _ H)).
Qed.

Lemma fetch_injuries_unsupported (league : string) :
  dict_get urls (Str.upper league) = None ->
  fetch_injuries requests_get html_parser league
  = ([Printed (msg_unsupported league)], inr []).
Proof. intros H. unfold fetch_injuries. now rewrite H. Qed.

End Fetch.




(* ================================================================== *)
(** ** A page without lineup boxes *)

(** C7: a page with no [div] of class [lineup__box] gives the empty
    mapping, and [fetch_injuries] returns it the normal way: its last line
    is the summary [Scraped 0 games], not a warning. *)
Theorem no_lineup_box_empty_report
  (requests_get : string -> list (string * string) -> Z -> exn + response)
  (html_parser : string -> exn + list node)
  (league url : string) (r : response) (nodes : list node) :
  lineup_boxes (soup_of nodes) = [] ->
  extract (soup_of nodes) = []
  /\ (dict_get urls (Str.upper league) = Some url ->
      requests_get url headers 10%Z = inr r ->
      status_code r = 200%Z ->
      html_parser (response_text r) = inr nodes ->
      fetch_injuries requests_get html_parser league
      = ([Printed (msg_connecting league); Requested url headers 10%Z;
          Printed "✅ Scraped 0 games. Found injuries in 0 matchups."],
         inr [])).
Proof.
  intros Hnone.
  assert (Hex : extract (soup_of nodes) = [])
    by (unfold extract; now rewrite Hnone).
  split; [exact Hex |].
  intros Hurl H Hc Hp.
  rewrite (fetch_injuries_supported _ _ _ _ Hurl).
  rewrite (scrape_parsed _ _ _ _ _ _ H Hc Hp), Hnone, Hex. reflexivity.
Qed.

Lemma no_lineup_box_empty_report_witness :
  fetch_injuries (Sample.answers 200) (Sample.parsed []) "NBA"
  = ([Printed "📡 Connecting to Rotowire NBA Lineups...";
      Requested "https://www.rotowire.com/basketball/nba-lineups.php" headers 10%Z;
      Printed "✅ Scraped 0 games. Found injuries in 0 matchups."], inr []).
Proof.
  apply (proj2 (no_lineup_box_empty_report
                  (Sample.answers 200) (Sample.parsed []) "NBA"
                  "https://www.rotowire.com/basketball/nba-lineups.php"
                  (Response 200 "<html>") [] eq_refl));
    reflexivity.
Defined.

(* ================================================================== *)
(** ** Two boxes with one label *)

(** Boxes that do not write under [k] leave what is found under [k]. *)
Lemma fold_scan_box_other (k : string) (boxes : list located)
      (report : dict (list string)) :
  (forall b, In b boxes -> matchup_key (teams b) = k -> injured_players b = []) ->
  dict_get (fold_left scan_box boxes report) k = dict_get report k.
Proof.
  revert report. induction boxes as [| box boxes IH]; intros report Hno;
    simpl; [reflexivity |].
  rewrite IH by (intros b Hb; apply Hno; now right).
  destruct (injured_players box) as [| p ps] eqn:E.
  - now rewrite (scan_box_healthy _ _ E).
  - rewrite scan_box_injured by (rewrite E; discriminate).
    apply dict_get_set_other. intros Hk.
    rewrite (Hno box (or_introl eq_refl) Hk) in E. discriminate.
Qed.

(** C9: when two boxes of a page carry the same label and each has a
    qualifying injury, and no box further down the page writes under that
    label, the mapping holds under the label the injury list of the later
    box, and nothing else: the list of the earlier box is gone. *)
Theorem later_box_overwrites
  (soup : located) (before between after : list located)
  (earlier later : located) (k : string) :
  lineup_boxes soup = before ++ earlier :: between ++ later :: after ->
  matchup_key (teams earlier) = k ->
  matchup_key (teams later) = k ->
  injured_players earlier <> [] ->
  injured_players later <> [] ->
  (forall b, In b after -> matchup_key (teams b) = k -> injured_players b = []) ->
  dict_get (extract soup) k = Some (injured_players later)
  /\ (forall players,
         In (k, players) (extract soup) -> players = injured_players later).
Proof.
  intros Hboxes Hk1 Hk2 Hinj1 Hinj2 Hafter.
  assert (Hget : dict_get (extract soup) k = Some (injured_players later)).
  { unfold extract. rewrite Hboxes.
    rewrite fold_left_app. simpl. rewrite fold_left_app. simpl.
    rewrite (fold_scan_box_other k after _ Hafter).
    rewrite (scan_box_injured _ later Hinj2), Hk2.
    apply dict_get_set_same. }
  split; [exact Hget |].
  intros players Hin.
  apply (dict_get_items _ _ _ (proj1 (extract_invariant soup))) in Hin.
  congruence.
Qed.

Lemma later_box_overwrites_witness :
  dict_get (extract (soup_of Rematch.page)) "LAL vs BOS"
  = Some ["Jayson Tatum (GTD)"]
  /\ extract (soup_of Rematch.page) = [("LAL vs BOS", ["Jayson Tatum (GTD)"])].
Proof.
  split; [| reflexivity].
  refine (proj1 (later_box_overwrites
                   (soup_of Rematch.page) [] [] [] Rematch.first Rematch.second
                   "LAL vs BOS" _ _ _ _ _ _)).
  - reflexivity.
  - reflexivity.
  - reflexivity.
  - vm_compute. discriminate.
  - vm_compute. discriminate.
  - intros b [].
Defined.

(* ================================================================== *)
(** ** The league argument *)

(** C10 as stated fails: [nba] and [NBA] do not behave identically, the
    progress line echoes the argument as it was typed. *)
Lemma league_case_counterexample :
  fetch_injuries (Sample.answers 200) (Sample.parsed Sample.lal_bos) "nba"
  <> fetch_injuries (Sample.answers 200) (Sample.parsed Sample.lal_bos) "NBA"
  /\ hd_error (trace (fetch_injuries (Sample.answers 200)
                                     (Sample.parsed Sample.lal_bos) "nba"))
     = Some (Printed "📡 Connecting to Rotowire nba Lineups...")
  /\ hd_error (trace (fetch_injuries (Sample.answers 200)
                                     (Sample.parsed Sample.lal_bos) "NBA"))
     = Some (Printed "📡 Connecting to Rotowire NBA Lineups...").
Proof.
  split; [| split; reflexivity].
  vm_compute. discriminate.
Qed.

(** C10, amended: the league is uppercased before the URL lookup, so a
    case variant of NBA or NHL requests the same URL, returns the same
    mapping and prints the same lines as the canonical form, but for the
    progress line, which echoes the argument as typed; and a league whose
    uppercased form is neither NBA nor NHL prints the error line, requests
    nothing and returns the empty mapping. *)
Theorem league_case_insensitive
  (requests_get : string -> list (string * string) -> Z -> exn + response)
  (html_parser : string -> exn + list node) (league : string) :
  (forall canonical,
      In canonical ["NBA"; "NHL"] ->
      Str.upper league = canonical ->
      exists rest,
        trace (fetch_injuries requests_get html_parser league)
        = Printed (msg_connecting league) :: rest
        /\ trace (fetch_injuries requests_get html_parser canonical)
           = Printed (msg_connecting canonical) :: rest
        /\ outcome (fetch_injuries requests_get html_parser league)
           = outcome (fetch_injuries requests_get html_parser canonical))
  /\ (Str.upper league <> "NBA" ->
      Str.upper league <> "NHL" ->
      fetch_injuries requests_get html_parser league
      = ([Printed (msg_unsupported league)], inr [])).
Proof.
  split.
  - intros canonical Hc Hup.
    assert (Hfix : Str.upper canonical = canonical)
      by (destruct Hc as [<- | [<- | []]]; reflexivity).
    assert (Hurl : exists url, dict_get urls canonical = Some url)
      by (destruct Hc as [<- | [<- | []]]; eexists; reflexivity).
    destruct Hurl as (url & Hurl).
    rewrite (fetch_injuries_supported _ _ league url) by now rewrite Hup.
    rewrite (fetch_injuries_supported _ _ canonical url) by now rewrite Hfix.
    unfold scrape, bind, print.
    destruct (try_except _ _) as [t r]. simpl.
    exists t. repeat split.
  - intros Hnba Hnhl. apply fetch_injuries_unsupported.
    unfold urls, dict_get.
    destruct (String.eqb_spec "NBA" (Str.upper league)); [congruence |].
    destruct (String.eqb_spec "NHL" (Str.upper league)); [congruence |].
    reflexivity.
Qed.

Lemma league_case_insensitive_witness :
  outcome (fetch_injuries (Sample.answers 200) (Sample.parsed Sample.lal_bos) "nBa")
  = outcome (fetch_injuries (Sample.answers 200) (Sample.parsed Sample.lal_bos) "NBA")
  /\ fetch_injuries (Sample.answers 200) (Sample.parsed Sample.lal_bos) "mlb"
     = ([Printed "❌ Error: League mlb not supported."], inr []).
Proof.
  split.
  - destruct (proj1 (league_case_insensitive
                       (Sample.answers 200) (Sample.parsed Sample.lal_bos) "nBa")
                    "NBA" (or_introl eq_refl) eq_refl)
      as (rest & _ & _ & Hsame).
    exact Hsame.
  - apply (proj2 (league_case_insensitive
                    (Sample.answers 200) (Sample.parsed Sample.lal_bos) "mlb")).
    + vm_compute. discriminate.
    + vm_compute. discriminate.
Defined.

(* ================================================================== *)
(** ** The alert of the live scan *)

Lemma descriptor_has_status (name status : string) :
  has_status status (descriptor name status) = true.
Proof. unfold has_status, descriptor. apply endswith_append. Qed.

Lemma descriptor_out_keyword (name : string) :
  Str.contains "OUT" (descriptor name "OUT") = true.
Proof.
  unfold descriptor.
  rewrite <- (append_assoc name " (" ("OUT" ++ ")")).
  apply contains_append.
Qed.

Lemma sniper_alert_is_alert (matchup : string) :
  is_alert (Printed (sniper_alert matchup)) = true.
Proof. reflexivity. Qed.

Lemma sniper_alert_injective (m m' : string) :
  sniper_alert m = sniper_alert m' -> m = m'.
Proof.
  unfold sniper_alert. intros H.
  apply append_inv_head in H. now apply append_inv_tail in H.
Qed.

Lemma no_alert_not_in (l : list event) (matchup : string) :
  Forall (fun ev => is_alert ev = false) l ->
  ~ In (Printed (sniper_alert matchup)) l.
Proof.
  rewrite Forall_forall. intros H Hin.
  specialize (H _ Hin). now rewrite sniper_alert_is_alert in H.
Qed.

Lemma for_each_trace {A} (xs : list A) (body : A -> M unit)
      (t : A -> list event) :
  (forall x, body x = (t x, inr tt)) ->
  for_each xs body = (flat_map t xs, inr tt).
Proof.
  intros H. induction xs as [| x xs IH]; simpl; [reflexivity |].
  unfold bind. now rewrite H, IH.
Qed.

Lemma show_report_trace (d : dict (list string)) :
  show_report d = (report_lines d, inr tt).
Proof.
  apply for_each_trace. intros mp. unfold bind, print.
  now rewrite (for_each_trace (snd mp) _ (fun p => [Printed ("   🚨 " ++ p)])).
Qed.

Lemma alpha_analysis_trace (d : dict (list string)) :
  alpha_analysis d = (alert_lines d, inr tt).
Proof.
  apply for_each_trace. intros mp. now destruct (any_out (snd mp)).
Qed.

Lemma report_lines_no_alert (d : dict (list string)) :
  Forall (fun ev => is_alert ev = false) (report_lines d).
Proof.
  unfold report_lines. rewrite Forall_flat_map, Forall_forall. intros mp _.
  constructor; [reflexivity |].
  rewrite Forall_flat_map, Forall_forall. intros p _. now constructor.
Qed.

Lemma alert_lines_in (d : dict (list string)) (matchup : string) :
  In (Printed (sniper_alert matchup)) (alert_lines d)
  <-> exists players, In (matchup, players) d /\ any_out players = true.
Proof.
  unfold alert_lines. rewrite in_flat_map. split.
  - intros ([m players] & Hin & H). simpl in H.
    destruct (any_out players) eqn:E; [| easy].
    destruct H as [H | []].
    assert (Hm : sniper_alert m = sniper_alert matchup) by congruence.
    apply sniper_alert_injective in Hm. subst m. eauto.
  - intros (players & Hin & E). exists (matchup, players).
    split; [assumption |]. simpl. rewrite E. now left.
Qed.

Section Scan.
Variable requests_get :
  string -> list (string * string) -> Z -> exn + response.
Variable html_parser : string -> exn + list node.

Lemma scrape_no_alert (league url : string) :
  Forall (fun ev => is_alert ev = false)
         (trace (scrape requests_get html_parser league url)).
Proof.
  destruct (scrape_ends requests_get html_parser league url)
    as [m H | m H | r H Hc | r m H Hc Hp | r m H Hc Hp | r nodes H Hc Hp].
  - rewrite (scrape_raised _ _ _ _ _ H). now repeat constructor.
  - rewrite (scrape_interrupted _ _ _ _ _ H). now repeat constructor.
  - rewrite (scrape_refused _ _ _ _ _ H Hc). now repeat constructor.
  - rewrite (scrape_unparsed _ _ _ _ _ _ H Hc Hp). now repeat constructor.
  - rewrite (scrape_parse_interrupted _ _ _ _ _ _ H Hc Hp).
    now repeat constructor.
  - rewrite (scrape_parsed _ _ _ _ _ _ H Hc Hp). now repeat constructor.
Qed.

Lemma fetch_injuries_no_alert (league : string) :
  Forall (fun ev => is_alert ev = false)
         (trace (fetch_injuries requests_get html_parser league)).
Proof.
  unfold fetch_injuries.
  destruct (dict_get urls (Str.upper league)) as [url |];
    [| now repeat constructor].
  destruct (String.eqb url "");
    [now repeat constructor | apply scrape_no_alert].
Qed.

Lemma fetch_injuries_distinct_keys (league : string) (report : dict (list string)) :
  outcome (fetch_injuries requests_get html_parser league) = inr report ->
  NoDup (keys report).
Proof.
  intros H.
  destruct (fetch_injuries_returned requests_get html_parser league report H)
    as [-> | (nodes & ->)].
  - constructor.
  - apply extract_invariant.
Qed.

(** The console of a scan that found something. *)
Lemma scan_live_web_found (league : string) (t : list event)
      (mp : string * list string) (report : dict (list string)) :
  fetch_injuries requests_get html_parser league = (t, inr (mp :: report)) ->
  scan_live_web requests_get html_parser league
  = (Printed (nl ++ "🌐 --- [LIVE WEB SCAN] Protocol Initiated: " ++ league ++ " ---")
       :: t
       ++ Printed (nl ++ "📋 Rotowire Live Injury Report:")
       :: report_lines (mp :: report)
       ++ Printed (nl ++ "💡 Alpha Analysis based on Live Data:")
       :: alert_lines (mp :: report) ++ [],
     inr (mp :: report)).
Proof.
  intros H. unfold scan_live_web, bind at 1 2. rewrite H.
  unfold bind, print, ret.
  rewrite show_report_trace, alpha_analysis_trace. reflexivity.
Qed.

Lemma scan_live_web_outcome (league : string) :
  outcome (scan_live_web requests_get html_parser league)
  = outcome (fetch_injuries requests_get html_parser league).
Proof.
  destruct (fetch_injuries requests_get html_parser league)
    as [t [e | [| mp report]]] eqn:E.
  - unfold scan_live_web, bind at 1 2. rewrite E. reflexivity.
  - unfold scan_live_web, bind at 1 2. rewrite E. reflexivity.
  - now rewrite (scan_live_web_found league t mp report E).
Qed.

Lemma scan_live_web_alert (league : string) (report : dict (list string))
      (matchup : string) (players : list string) :
  outcome (scan_live_web requests_get html_parser league) = inr report ->
  In (matchup, players) report ->
  (In (Printed (sniper_alert matchup))
      (trace (scan_live_web requests_get html_parser league))
   <-> any_out players = true).
Proof.
  intros Hout Hin. rewrite scan_live_web_outcome in Hout.
  pose proof (fetch_injuries_distinct_keys league report Hout) as Hnd.
  pose proof (fetch_injuries_no_alert league) as Hquiet.
  destruct (fetch_injuries requests_get html_parser league) as [t r] eqn:E.
  simpl in Hout, Hquiet. subst r.
  destruct report as [| mp report]; [easy |].
  rewrite (scan_live_web_found league t mp report E).
  unfold trace, fst. rewrite app_nil_r. split.
  - intros [H | H]; [discriminate H |].
    apply in_app_or in H. destruct H as [H | H];
      [now apply no_alert_not_in in H |].
    destruct H as [H | H]; [discriminate H |].
    apply in_app_or in H. destruct H as [H | H];
      [now apply (no_alert_not_in _ _ (report_lines_no_alert _)) in H |].
    destruct H as [H | H]; [discriminate H |].
    apply alert_lines_in in H. destruct H as (players' & Hin' & Hany).
    apply (dict_get_items _ _ _ Hnd) in Hin, Hin'. congruence.
  - intros Hany. right. apply in_or_app. right. right.
    apply in_or_app. right. right.
    apply alert_lines_in. eauto.
Qed.
End Scan.

(** C5 as stated fails: the alert is printed for a matchup whose only
    descriptor has the status GTD, because the letters OUT stand in the
    player's name. *)
Lemma sniper_alert_counterexample :
  outcome Stout.run = inr [("LAL vs BOS", ["T. STOUT (GTD)"])]
  /\ In (Printed (sniper_alert "LAL vs BOS")) (trace Stout.run)
  /\ has_status "GTD" "T. STOUT (GTD)" = true
  /\ ~ (exists name, In (descriptor name "OUT") ["T. STOUT (GTD)"]).
Proof.
  split; [reflexivity |]. split; [| split; [reflexivity |]].
  - vm_compute. do 8 right. left. reflexivity.
  - intros (name & [H | []]).
    pose proof (descriptor_has_status name "OUT") as Hs.
    rewrite <- H in Hs. vm_compute in Hs. discriminate Hs.
Qed.

(** C5, amended: for a matchup of the report that [scan_live_web] prints,
    the alert is printed if and only if some descriptor of the matchup
    holds the letters OUT, wherever they stand in it; a descriptor whose
    status is OUT is such a descriptor. *)
Theorem sniper_alert_iff_keyword
  (requests_get : string -> list (string * string) -> Z -> exn + response)
  (html_parser : string -> exn + list node)
  (league : string) (report : dict (list string))
  (matchup : string) (players : list string) :
  outcome (scan_live_web requests_get html_parser league) = inr report ->
  In (matchup, players) report ->
  (In (Printed (sniper_alert matchup))
      (trace (scan_live_web requests_get html_parser league))
   <-> exists p, In p players /\ Str.contains "OUT" p = true)
  /\ ((exists name, In (descriptor name "OUT") players) ->
      In (Printed (sniper_alert matchup))
         (trace (scan_live_web requests_get html_parser league))).
Proof.
  intros Hout Hin.
  pose proof (scan_live_web_alert _ _ league report matchup players Hout Hin)
    as Halert.
  unfold any_out in Halert. rewrite existsb_exists in Halert.
  split; [exact Halert |].
  intros (name & Hname). apply Halert.
  exists (descriptor name "OUT"). split; [assumption |].
  apply descriptor_out_keyword.
Qed.

Lemma sniper_alert_iff_keyword_witness :
  In (Printed (sniper_alert "LAL vs BOS"))
     (trace (scan_live_web (Sample.answers 200) (Sample.parsed Sample.lal_bos) "NBA")).
Proof.
  refine (proj2 (sniper_alert_iff_keyword
                   (Sample.answers 200) (Sample.parsed Sample.lal_bos) "NBA"
                   [("LAL vs BOS", ["LeBron James (OUT)"])]
                   "LAL vs BOS" ["LeBron James (OUT)"] _ _) _).
  - reflexivity.
  - left. reflexivity.
  - exists "LeBron James". left. reflexivity.
Defined.

(* ================================================================== *)
(** ** The report as a whole *)

Section DictMore.
Context {V : Type}.
Implicit Types (d : dict V) (k : string) (v : V).

Lemma In_dict_set d k v k' v' :
  In (k, v) (dict_set d k' v') -> In (k, v) d \/ (k = k' /\ v = v').
Proof.
  induction d as [| [k0 v0] d IH]; simpl.
  - intros [[= <- <-] | []]. now right.
  - destruct (String.eqb k0 k'); simpl.
    + intros [[= <- <-] | H]; [now right | left; now right].
    + intros [H | H]; [left; now left |].
      destruct (IH H) as [H' | H']; [left; now right | now right].
Qed.

Lemma key_dict_set d k v : In k (keys (dict_set d k v)).
Proof.
  rewrite keys_dict_set. destruct (Str.mem k (keys d)) eqn:E.
  - now apply mem_In.
  - apply in_or_app. right. now left.
Qed.

Lemma keys_dict_set_incl d k v k' :
  In k' (keys d) -> In k' (keys (dict_set d k v)).
Proof.
  intros H. rewrite keys_dict_set.
  destruct (Str.mem k (keys d)); [assumption | apply in_or_app; now left].
Qed.

Lemma length_dict_set d k v :
  List.length (dict_set d k v) <= S (List.length d).
Proof.
  induction d as [| [k0 v0] d IH]; simpl; [lia |].
  destruct (String.eqb k0 k); simpl; lia.
Qed.

Lemma dict_set_fresh d k v : ~ In k (keys d) -> dict_set d k v = d ++ [(k, v)].
Proof.
  unfold keys. induction d as [| [k0 v0] d IH]; simpl; intros H; [reflexivity |].
  destruct (String.eqb_spec k0 k) as [-> | _]; [exfalso; auto |].
  rewrite IH; auto.
Qed.

Lemma dict_get_in_keys d k : In k (keys d) -> exists v, dict_get d k = Some v.
Proof.
  unfold keys. induction d as [| [k0 v0] d IH]; simpl; [easy |].
  intros [-> | H].
  - rewrite String.eqb_refl. eauto.
  - destruct (String.eqb k0 k); eauto.
Qed.
End DictMore.

Lemma has_injuries_true (box : located) :
  has_injuries box = true <-> injured_players box <> [].
Proof.
  unfold has_injuries. destruct (injured_players box); split;
    try easy; intros H; now contradict H.
Qed.

Lemma scan_box_cases (report : dict (list string)) (box : located) :
  scan_box report box
  = if has_injuries box
    then dict_set report (matchup_key (teams box)) (injured_players box)
    else report.
Proof. unfold scan_box, has_injuries. now destruct (injured_players box). Qed.

(** Whatever the loop leaves in the report was there before or was
    written for a box with injuries. *)
Lemma fold_scan_box_items (boxes : list located) (report : dict (list string))
      (k : string) (players : list string) :
  In (k, players) (fold_left scan_box boxes report) ->
  In (k, players) report
  \/ exists box, In box boxes
                 /\ k = matchup_key (teams box)
                 /\ players = injured_players box
                 /\ players <> [].
Proof.
  revert report. induction boxes as [| box boxes IH]; intros report;
    simpl; [now left |].
  intros H. destruct (IH _ H) as [Hin | (b & Hb & Hk & Hp & Hne)].
  - rewrite scan_box_cases in Hin.
    destruct (has_injuries box) eqn:E; [| now left].
    destruct (In_dict_set _ _ _ _ _ Hin) as [Hold | [-> ->]]; [now left |].
    right. exists box. repeat split; [now left |].
    now apply has_injuries_true.
  - right. exists b. repeat split; try assumption. now right.
Qed.

Lemma fold_scan_box_keys (boxes : list located) (report : dict (list string))
      (k : string) :
  In k (keys report) -> In k (keys (fold_left scan_box boxes report)).
Proof.
  revert report. induction boxes as [| box boxes IH]; intros report H;
    simpl; [assumption |].
  apply IH. rewrite scan_box_cases.
  destruct (has_injuries box); [now apply keys_dict_set_incl | assumption].
Qed.

Lemma fold_scan_box_length (boxes : list located) (report : dict (list string)) :
  List.length (fold_left scan_box boxes report)
  <= List.length report + List.length (filter has_injuries boxes).
Proof.
  revert report. induction boxes as [| box boxes IH]; intros report;
    simpl; [lia |].
  specialize (IH (scan_box report box)). rewrite scan_box_cases in *.
  destruct (has_injuries box); simpl; [| lia].
  pose proof (length_dict_set report (matchup_key (teams box))
                              (injured_players box)). lia.
Qed.

Lemma fold_scan_box_fresh (boxes : list located) (report : dict (list string)) :
  NoDup (keys report
           ++ map (fun b => matchup_key (teams b)) (filter has_injuries boxes)) ->
  fold_left scan_box boxes report
  = report ++ map (fun b => (matchup_key (teams b), injured_players b))
                  (filter has_injuries boxes).
Proof.
  revert report. induction boxes as [| box boxes IH]; intros report Hnd;
    simpl; [now rewrite app_nil_r |].
  rewrite scan_box_cases. simpl in Hnd.
  destruct (has_injuries box); [| now apply IH].
  simpl in Hnd |- *.
  assert (Hfresh : ~ In (matchup_key (teams box)) (keys report)).
  { intros Hin. apply NoDup_remove_2 in Hnd. apply Hnd.
    apply in_or_app. now left. }
  rewrite (dict_set_fresh _ _ _ Hfresh), IH.
  - now rewrite <- app_assoc.
  - unfold keys in *. rewrite map_app, <- app_assoc. exact Hnd.
Qed.

(** X1: every item of the extracted report comes from a lineup box of
    the page: its key is the label of that box and its value the injury
    list of that box, which is not empty. *)
Theorem report_items_from_boxes
  (soup : located) (k : string) (players : list string) :
  In (k, players) (extract soup) ->
  exists box,
    In box (lineup_boxes soup)
    /\ k = matchup_key (teams box)
    /\ players = injured_players box
    /\ players <> [].
Proof.
  intros H. destruct (fold_scan_box_items _ _ _ _ H) as [[] | Hbox].
  exact Hbox.
Qed.

Lemma report_items_from_boxes_witness :
  exists box,
    In box (lineup_boxes (soup_of Slate.page))
    /\ "DEN vs PHX" = matchup_key (teams box)
    /\ ["Jamal Murray (GTD)"; "Devin Booker (DOUBTFUL)"] = injured_players box.
Proof.
  destruct (report_items_from_boxes
              (soup_of Slate.page) "DEN vs PHX"
              ["Jamal Murray (GTD)"; "Devin Booker (DOUBTFUL)"])
    as (box & Hin & Hk & Hp & _).
  - vm_compute. right. left. reflexivity.
  - exists box. now repeat split.
Defined.

(** X2: every lineup box of the page with a qualifying injury has its
    label among the keys of the report, and what stands under the label is
    the non-empty injury list of a box of the page with that label. *)
Theorem injured_box_is_reported (soup box : located) :
  In box (lineup_boxes soup) ->
  injured_players box <> [] ->
  exists writer,
    In writer (lineup_boxes soup)
    /\ matchup_key (teams writer) = matchup_key (teams box)
    /\ injured_players writer <> []
    /\ dict_get (extract soup) (matchup_key (teams box))
       = Some (injured_players writer).
Proof.
  intros Hbox Hinj.
  assert (Hkey : In (matchup_key (teams box)) (keys (extract soup))).
  { unfold extract. apply in_split in Hbox.
    destruct Hbox as (before & after & ->).
    rewrite fold_left_app. simpl. apply fold_scan_box_keys.
    rewrite scan_box_cases.
    rewrite (proj2 (has_injuries_true box) Hinj). apply key_dict_set. }
  destruct (dict_get_in_keys _ _ Hkey) as (players & Hget).
  pose proof Hget as Hitem.
  apply (dict_get_items _ _ _ (proj1 (extract_invariant soup))) in Hitem.
  destruct (fold_scan_box_items _ _ _ _ Hitem)
    as [[] | (writer & Hw & Hk & Hp & Hne)].
  exists writer. subst players. repeat split; auto.
Qed.

Lemma injured_box_is_reported_witness :
  exists writer,
    dict_get (extract (soup_of Rematch.page)) "LAL vs BOS"
    = Some (injured_players writer).
Proof.
  destruct (injured_box_is_reported (soup_of Rematch.page) Rematch.first)
    as (writer & _ & _ & _ & Hget).
  - vm_compute. left. reflexivity.
  - vm_compute. discriminate.
  - exists writer. exact Hget.
Defined.

(** X3: when the page is fetched and parsed, the summary line counts the
    lineup boxes of the page as games and the keys of the report as
    matchups, and the second number never exceeds the number of boxes with
    an injury, so never the first. *)
Theorem scraped_summary
  (requests_get : string -> list (string * string) -> Z -> exn + response)
  (html_parser : string -> exn + list node)
  (league url : string) (r : response) (nodes : list node) :
  dict_get urls (Str.upper league) = Some url ->
  requests_get url headers 10%Z = inr r ->
  status_code r = 200%Z ->
  html_parser (response_text r) = inr nodes ->
  let boxes := lineup_boxes (soup_of nodes) in
  let report := extract (soup_of nodes) in
  fetch_injuries requests_get html_parser league
  = ([Printed (msg_connecting league); Requested url headers 10%Z;
      Printed (msg_scraped (List.length boxes) (List.length report))],
     inr report)
  /\ List.length report <= List.length (filter has_injuries boxes)
  /\ List.length (filter has_injuries boxes) <= List.length boxes.
Proof.
  intros Hurl H Hc Hp boxes report. split; [| split].
  - rewrite (fetch_injuries_supported _ _ _ _ Hurl).
    now rewrite (scrape_parsed _ _ _ _ _ _ H Hc Hp).
  - apply (fold_scan_box_length boxes []).
  - apply filter_length_le.
Qed.

Lemma scraped_summary_witness :
  fetch_injuries (Sample.answers 200) (Sample.parsed Slate.page) "NBA"
  = ([Printed "📡 Connecting to Rotowire NBA Lineups...";
      Requested "https://www.rotowire.com/basketball/nba-lineups.php" headers 10%Z;
      Printed "✅ Scraped 3 games. Found injuries in 2 matchups."],
     inr [("LAL vs BOS", ["LeBron James (OUT)"]);
          ("DEN vs PHX", ["Jamal Murray (GTD)"; "Devin Booker (DOUBTFUL)"])]).
Proof.
  refine (proj1 (scraped_summary
                   (Sample.answers 200) (Sample.parsed Slate.page) "NBA"
                   "https://www.rotowire.com/basketball/nba-lineups.php"
                   (Response 200 "<html>") Slate.page _ _ _ _));
    reflexivity.
Defined.

(** X4: when the boxes with an injury carry pairwise distinct labels, the
    report is exactly those boxes in page order, each under its label with
    its injury list. *)
Theorem distinct_labels_report (soup : located) :
  NoDup (map (fun b => matchup_key (teams b))
             (filter has_injuries (lineup_boxes soup))) ->
  extract soup
  = map (fun b => (matchup_key (teams b), injured_players b))
        (filter has_injuries (lineup_boxes soup)).
Proof.
  intros Hnd. unfold extract.
  now rewrite (fold_scan_box_fresh (lineup_boxes soup) [] Hnd).
Qed.

Lemma distinct_labels_report_witness :
  extract (soup_of Slate.page)
  = map (fun b => (matchup_key (teams b), injured_players b))
        (filter has_injuries (lineup_boxes (soup_of Slate.page))).
Proof.
  apply distinct_labels_report. vm_compute.
  repeat constructor; simpl; intuition discriminate.
Defined.

(* ================================================================== *)
(** ** The injury list of a box *)

Lemma player_node_found (soup box t : located) :
  In box (lineup_boxes soup) -> In t (status_tags box) ->
  exists pn, player_node t = Some pn.
Proof.
  intros Hbox Ht. unfold player_node.
  destruct (find_parent "li" t) as [li |]; [eauto |].
  exact (status_tag_has_div soup box t Hbox Ht).
Qed.

Lemma flat_map_scan_status (l : list located) :
  (forall t, In t l -> exists pn, player_node t = Some pn) ->
  Forall2 (fun p t => exists pn,
               player_node t = Some pn
               /\ p = descriptor (player_name pn) (status_text t))
          (flat_map (scan_status []) l)
          (filter (fun t => Str.mem (status_text t) statuses) l).
Proof.
  induction l as [| t l IH]; intros Hall; cbn [flat_map filter];
    [constructor |].
  assert (Hrest : forall t', In t' l -> exists pn, player_node t' = Some pn)
    by (intros t' Ht'; apply Hall; now right).
  unfold scan_status at 1.
  destruct (Str.mem (status_text t) statuses); [| now apply IH].
  destruct (Hall t (or_introl eq_refl)) as (pn & Hpn). rewrite Hpn.
  cbn [app]. constructor; [eauto | now apply IH].
Qed.

(** X5: in a lineup box of the page, the injury list has exactly one
    descriptor per qualifying status tag, in the order of the tags in the
    document, each made of the player name read above that tag and of the
    normalized status of that tag. *)
Theorem one_descriptor_per_qualifying_tag (soup box : located) :
  In box (lineup_boxes soup) ->
  let qualifying :=
    filter (fun t => Str.mem (status_text t) statuses) (status_tags box) in
  Forall2 (fun p t => exists pn,
               player_node t = Some pn
               /\ p = descriptor (player_name pn) (status_text t))
          (injured_players box) qualifying
  /\ List.length (injured_players box) = List.length qualifying.
Proof.
  intros Hbox qualifying.
  assert (H : Forall2 (fun p t => exists pn,
                           player_node t = Some pn
                           /\ p = descriptor (player_name pn) (status_text t))
                      (injured_players box) qualifying).
  { rewrite injured_players_flat_map. apply flat_map_scan_status.
    intros t Ht. exact (player_node_found soup box t Hbox Ht). }
  split; [exact H | exact (Forall2_length H)].
Qed.

Lemma one_descriptor_per_qualifying_tag_witness :
  List.length (injured_players (nth 2 (lineup_boxes (soup_of Slate.page)) Sample.empty))
  = 2.
Proof.
  destruct (one_descriptor_per_qualifying_tag
              (soup_of Slate.page)
              (nth 2 (lineup_boxes (soup_of Slate.page)) Sample.empty))
    as [_ Hlen].
  - vm_compute. right. right. left. reflexivity.
  - rewrite Hlen. reflexivity.
Defined.

(** What is below a node that is below [n] is below [n]. *)
Lemma descendants_trans (n : node) :
  forall up d e,
    In d (descendants up n) ->
    In e (descendants (parents d) (here d)) ->
    In e (descendants up n).
Proof.
  induction n as [s | name classes contents IH] using node_induction;
    intros up d e Hd He; simpl in Hd |- *; [easy |].
  apply in_flat_map in Hd. destruct Hd as (c & Hc & Hd).
  apply in_flat_map. exists c. split; [assumption |]. right.
  destruct Hd as [<- | Hd]; [exact He |].
  rewrite Forall_forall in IH. exact (IH c Hc _ _ _ Hd He).
Qed.

Lemma find_all_trans (name1 name2 : string) (wanted1 wanted2 : list string)
      (x d e : located) :
  In d (find_all name1 wanted1 x) ->
  In e (find_all name2 wanted2 d) ->
  In e (find_all name2 wanted2 x).
Proof.
  unfold find_all. rewrite !filter_In. intros [Hd _] [He Hm].
  split; [| assumption]. eapply descendants_trans; eassumption.
Qed.

Lemma injured_box_key (soup box : located) :
  In box (lineup_boxes soup) ->
  injured_players box <> [] ->
  In (matchup_key (teams box)) (keys (extract soup)).
Proof.
  intros Hbox Hinj. unfold extract. apply in_split in Hbox.
  destruct Hbox as (before & after & ->).
  rewrite fold_left_app. simpl. apply fold_scan_box_keys.
  rewrite scan_box_cases.
  rewrite (proj2 (has_injuries_true box) Hinj). apply key_dict_set.
Qed.

(** X6: a lineup box inside a lineup box is a lineup box of the page in
    its own right, and every descriptor of the inner box is also in the
    injury list of the enclosing box; when the inner box has an injury,
    the labels of both boxes are keys of the report (one key when the two
    labels are the same). *)
Theorem nested_box_listed_by_outer (soup outer inner : located) :
  In outer (lineup_boxes soup) ->
  In inner (lineup_boxes outer) ->
  In inner (lineup_boxes soup)
  /\ incl (injured_players inner) (injured_players outer)
  /\ (injured_players inner <> [] ->
      In (matchup_key (teams outer)) (keys (extract soup))
      /\ In (matchup_key (teams inner)) (keys (extract soup))).
Proof.
  intros Houter Hinner.
  assert (Hin : In inner (lineup_boxes soup))
    by exact (find_all_trans _ _ _ _ _ _ _ Houter Hinner).
  assert (Hincl : incl (injured_players inner) (injured_players outer)).
  { intros p. rewrite !injured_players_flat_map, !in_flat_map.
    intros (t & Ht & Hp). exists t. split; [| assumption].
    exact (find_all_trans _ _ _ _ _ _ _ Hinner Ht). }
  split; [exact Hin |]. split; [exact Hincl |].
  intros Hinj. split.
  - apply injured_box_key; [assumption |].
    destruct (injured_players inner) as [| p ps] eqn:E; [contradiction |].
    intros Hnone. specialize (Hincl p (or_introl eq_refl)).
    rewrite Hnone in Hincl. destruct Hincl.
  - now apply injured_box_key.
Qed.

Lemma nested_box_listed_by_outer_witness :
  In "Jayson Tatum (GTD)" (injured_players Nested.outer)
  /\ In "LAL vs BOS" (keys (extract (soup_of Nested.page)))
  /\ In "Unknown Matchup" (keys (extract (soup_of Nested.page))).
Proof.
  destruct (nested_box_listed_by_outer
              (soup_of Nested.page) Nested.outer Nested.inner)
    as (_ & Hincl & Hkeys).
  - vm_compute. left. reflexivity.
  - vm_compute. left. reflexivity.
  - split.
    + apply Hincl. vm_compute. left. reflexivity.
    + apply Hkeys. vm_compute. discriminate.
Defined.

(** X7: no team identifier and no player name, the sentinel [Unknown]
    included, starts or ends with a whitespace character, the no-break
    space and the other spaces that [str.strip] cuts included. *)
Theorem identifiers_are_trimmed (box : located) (pn : node) :
  Forall (fun id => ~ starts_blank id /\ ~ ends_blank id) (teams box)
  /\ ~ starts_blank (player_name pn)
  /\ ~ ends_blank (player_name pn).
Proof.
  split.
  - unfold teams. rewrite fold_append_map. simpl.
    apply Forall_map, Forall_forall. intros t _.
    destruct (strip_trimmed (text (here t))) as (l & r & _ & _ & _ & Hs & He).
    now split.
  - unfold player_name. destruct (find "a" pn) as [a |].
    + destruct (strip_trimmed (text a)) as (l & r & _ & _ & _ & Hs & He).
      now split.
    + split.
      * destruct (lstrip_split "Unknown") as (l & _ & _ & Hn). exact Hn.
      * destruct (rstrip_split "Unknown") as (r & _ & _ & Hn). exact Hn.
Qed.

(* ================================================================== *)
(** ** The keyword of the alert *)

Lemma prefix_out_before_space (a rest : string) :
  String.prefix "OUT" (a ++ String " " rest) = String.prefix "OUT" a.
Proof.
  destruct a as [| c1 [| c2 [| c3 a]]]; cbn [String.append String.prefix];
    repeat match goal with
           | |- context [ascii_dec ?x ?y] =>
               let H := fresh in
               destruct (ascii_dec x y) as [H | ?]; try discriminate H
           end;
    try reflexivity; destruct a; reflexivity.
Qed.

Lemma contains_out_before_space (a rest : string) :
  Str.contains "OUT" (a ++ String " " rest)
  = Str.contains "OUT" a || Str.contains "OUT" (String " " rest).
Proof.
  induction a as [| c a IH].
  - reflexivity.
  - change (String c a ++ String " " rest)%string
      with (String c (a ++ String " " rest)).
    cbn [Str.contains]. rewrite IH.
    change (String c (a ++ String " " rest))
      with (String c a ++ String " " rest)%string.
    rewrite prefix_out_before_space. now rewrite orb_assoc.
Qed.

Lemma descriptor_keyword (name status : string) :
  In status statuses ->
  Str.contains "OUT" (descriptor name status)
  = String.eqb status "OUT" || Str.contains "OUT" name.
Proof.
  intros Hin. unfold descriptor.
  change (" (" ++ status ++ ")")%string
    with (String " " ("(" ++ status ++ ")")).
  rewrite contains_out_before_space.
  destruct Hin as [<- | [<- | [<- | []]]]; cbn; now rewrite ?orb_true_r, ?orb_false_r.
Qed.

(** X8: for descriptors made of a name and one of the three statuses,
    the test of line 137 holds exactly when some status is OUT or some
    name holds the letters OUT: GTD and DOUBTFUL never raise the alert by
    themselves. *)
Theorem alert_by_status_or_name (entries : list (string * string)) :
  Forall (fun e => In (snd e) statuses) entries ->
  any_out (map (fun e => descriptor (fst e) (snd e)) entries)
  = existsb (fun e => String.eqb (snd e) "OUT" || Str.contains "OUT" (fst e))
            entries.
Proof.
  unfold any_out. induction 1 as [| [name status] entries Hst _ IH];
    cbn [map existsb fst snd]; [reflexivity |].
  now rewrite IH, (descriptor_keyword name status Hst).
Qed.

Lemma alert_by_status_or_name_witness :
  any_out ["Jamal Murray (GTD)"; "Devin Booker (DOUBTFUL)"] = false
  /\ any_out ["Jamal Murray (GTD)"; "LeBron James (OUT)"] = true.
Proof.
  split.
  - refine (alert_by_status_or_name
              [("Jamal Murray", "GTD"); ("Devin Booker", "DOUBTFUL")] _).
    constructor; [simpl; auto | constructor; [simpl; auto | constructor]].
  - refine (alert_by_status_or_name
              [("Jamal Murray", "GTD"); ("LeBron James", "OUT")] _).
    constructor; [simpl; auto | constructor; [simpl; auto | constructor]].
Defined.

(* ================================================================== *)
(** ** The console of a scan *)

Lemma requests_app (t t' : list event) :
  requests (t ++ t') = requests t ++ requests t'.
Proof. apply filter_app. Qed.

Lemma requests_none (t : list event) :
  Forall (fun ev => is_request ev = false) t -> requests t = [].
Proof.
  unfold requests. induction 1 as [| ev t Hev _ IH]; simpl; [reflexivity |].
  now rewrite Hev.
Qed.

Lemma report_lines_no_request (d : dict (list string)) :
  Forall (fun ev => is_request ev = false) (report_lines d).
Proof.
  unfold report_lines. rewrite Forall_flat_map, Forall_forall. intros mp _.
  constructor; [reflexivity |].
  rewrite Forall_flat_map, Forall_forall. intros p _. now constructor.
Qed.

Lemma alert_lines_no_request (d : dict (list string)) :
  Forall (fun ev => is_request ev = false) (alert_lines d).
Proof.
  unfold alert_lines. rewrite Forall_flat_map, Forall_forall. intros mp _.
  destruct (any_out (snd mp)); now repeat constructor.
Qed.

Section ScanMore.
Variable requests_get :
  string -> list (string * string) -> Z -> exn + response.
Variable html_parser : string -> exn + list node.

Lemma scan_live_web_empty (league : string) (t : list event) :
  fetch_injuries requests_get html_parser league = (t, inr []) ->
  scan_live_web requests_get html_parser league
  = (Printed (nl ++ "🌐 --- [LIVE WEB SCAN] Protocol Initiated: " ++ league ++ " ---")
       :: t
       ++ [Printed "⚠️ No games found or scraping blocked. Check internet connection."],
     inr []).
Proof.
  intros H. unfold scan_live_web, bind at 1 2. rewrite H. reflexivity.
Qed.

Lemma scrape_requests (league url : string) :
  requests (trace (scrape requests_get html_parser league url))
  = [Requested url headers 10].
Proof.
  destruct (scrape_ends requests_get html_parser league url)
    as [m H | m H | r H Hc | r m H Hc Hp | r m H Hc Hp | r nodes H Hc Hp].
  - now rewrite (scrape_raised _ _ _ _ _ H).
  - now rewrite (scrape_interrupted _ _ _ _ _ H).
  - now rewrite (scrape_refused _ _ _ _ _ H Hc).
  - now rewrite (scrape_unparsed _ _ _ _ _ _ H Hc Hp).
  - now rewrite (scrape_parse_interrupted _ _ _ _ _ _ H Hc Hp).
  - now rewrite (scrape_parsed _ _ _ _ _ _ H Hc Hp).
Qed.

(** What leaves the fetch leaves the scan, after the header alone. *)
Lemma scan_live_web_raised (league : string) (t : list event) (e : exn) :
  fetch_injuries requests_get html_parser league = (t, inl e) ->
  scan_live_web requests_get html_parser league
  = (Printed (nl ++ "🌐 --- [LIVE WEB SCAN] Protocol Initiated: " ++ league ++ " ---")
       :: t,
     inl e).
Proof.
  intros H. unfold scan_live_web, bind at 1 2. rewrite H. reflexivity.
Qed.

(** The scan asks the network for nothing beyond what the fetch asks. *)
Lemma scan_live_web_requests (league : string) :
  requests (trace (scan_live_web requests_get html_parser league))
  = requests (trace (fetch_injuries requests_get html_parser league)).
Proof.
  destruct (fetch_injuries requests_get html_parser league)
    as [t [e | [| mp report]]] eqn:E.
  - now rewrite (scan_live_web_raised league t e E).
  - rewrite (scan_live_web_empty league t E). unfold trace, fst.
    change (requests (Printed ?x :: ?l)) with (requests l).
    now rewrite requests_app, app_nil_r.
  - rewrite (scan_live_web_found _ _ league t mp report E). unfold trace, fst.
    change (requests (Printed ?x :: ?l)) with (requests l).
    rewrite requests_app.
    change (requests (Printed ?x :: ?l)) with (requests l).
    rewrite requests_app.
    change (requests (Printed ?x :: ?l)) with (requests l).
    rewrite requests_app.
    rewrite (requests_none _ (report_lines_no_request _)).
    rewrite (requests_none _ (alert_lines_no_request _)).
    now rewrite app_nil_r.
Qed.

End ScanMore.

(** X9: when the fetch returns the empty mapping, whatever the reason,
    the scan prints its header, the lines of the fetch and the no-games
    warning, nothing else, and returns the empty mapping; for a league that
    is not supported these are three lines, and no report, no alert and no
    request. *)
Theorem scan_of_empty_report
  (requests_get : string -> list (string * string) -> Z -> exn + response)
  (html_parser : string -> exn + list node) (league : string) :
  (forall t,
      fetch_injuries requests_get html_parser league = (t, inr []) ->
      scan_live_web requests_get html_parser league
      = (Printed (nl ++ "🌐 --- [LIVE WEB SCAN] Protocol Initiated: " ++ league ++ " ---")
           :: t
           ++ [Printed "⚠️ No games found or scraping blocked. Check internet connection."],
         inr []))
  /\ (dict_get urls (Str.upper league) = None ->
      scan_live_web requests_get html_parser league
      = ([Printed (nl ++ "🌐 --- [LIVE WEB SCAN] Protocol Initiated: " ++ league ++ " ---");
          Printed (msg_unsupported league);
          Printed "⚠️ No games found or scraping blocked. Check internet connection."],
         inr [])).
Proof.
  split.
  - intros t. apply scan_live_web_empty.
  - intros H. apply (scan_live_web_empty _ _ league [Printed (msg_unsupported league)]).
    now apply fetch_injuries_unsupported.
Qed.

Lemma scan_of_empty_report_witness :
  scan_live_web Sample.unreachable Sample.unparsable "mlb"
  = ([Printed (nl ++ "🌐 --- [LIVE WEB SCAN] Protocol Initiated: mlb ---");
      Printed "❌ Error: League mlb not supported.";
      Printed "⚠️ No games found or scraping blocked. Check internet connection."],
     inr [])
  /\ scan_live_web (Sample.answers 503) Sample.unparsable "NBA"
     = ([Printed (nl ++ "🌐 --- [LIVE WEB SCAN] Protocol Initiated: NBA ---");
         Printed "📡 Connecting to Rotowire NBA Lineups...";
         Requested "https://www.rotowire.com/basketball/nba-lineups.php" headers 10%Z;
         Printed "❌ Connection failed: Status 503";
         Printed "⚠️ No games found or scraping blocked. Check internet connection."],
        inr []).
Proof.
  split.
  - apply (proj2 (scan_of_empty_report
                    Sample.unreachable Sample.unparsable "mlb")).
    reflexivity.
  - refine (proj1 (scan_of_empty_report
                     (Sample.answers 503) Sample.unparsable "NBA")
                  [Printed "📡 Connecting to Rotowire NBA Lineups...";
                   Requested "https://www.rotowire.com/basketball/nba-lineups.php" headers 10%Z;
                   Printed "❌ Connection failed: Status 503"] _).
    reflexivity.
Defined.

(** X10: a scan asks the network at most once: not at all for a league
    that is not supported, and otherwise exactly once, for one of the two
    Rotowire pages, with the fixed headers and a timeout of 10. *)
Theorem scan_requests_once
  (requests_get : string -> list (string * string) -> Z -> exn + response)
  (html_parser : string -> exn + list node) (league : string) :
  (dict_get urls (Str.upper league) = None ->
   requests (trace (scan_live_web requests_get html_parser league)) = [])
  /\ (forall url,
         dict_get urls (Str.upper league) = Some url ->
         requests (trace (scan_live_web requests_get html_parser league))
         = [Requested url headers 10%Z]
         /\ (url = "https://www.rotowire.com/basketball/nba-lineups.php"
             \/ url = "https://www.rotowire.com/hockey/nhl-lineups.php")).
Proof.
  rewrite scan_live_web_requests. split.
  - intros H. now rewrite (fetch_injuries_unsupported _ _ _ H).
  - intros url H. split.
    + rewrite (fetch_injuries_supported _ _ _ _ H). apply scrape_requests.
    + revert H. unfold urls, dict_get.
      destruct (String.eqb "NBA" (Str.upper league)); [intros [= <-]; now left |].
      destruct (String.eqb "NHL" (Str.upper league)); [intros [= <-]; now right |].
      discriminate.
Qed.

Lemma scan_requests_once_witness :
  requests (trace (scan_live_web (Sample.answers 200) (Sample.parsed Slate.page) "mlb"))
  = []
  /\ requests (trace (scan_live_web (Sample.answers 200) (Sample.parsed Slate.page) "nhl"))
     = [Requested "https://www.rotowire.com/hockey/nhl-lineups.php" headers 10%Z].
Proof.
  split.
  - apply (proj1 (scan_requests_once
                    (Sample.answers 200) (Sample.parsed Slate.page) "mlb")).
    reflexivity.
  - apply (proj2 (scan_requests_once
                    (Sample.answers 200) (Sample.parsed Slate.page) "nhl")
                 "https://www.rotowire.com/hockey/nhl-lineups.php").
    reflexivity.
Defined.

(** X11: a scan that found something prints every matchup of the report
    and, for each, every one of its descriptors. *)
Theorem report_is_printed
  (requests_get : string -> list (string * string) -> Z -> exn + response)
  (html_parser : string -> exn + list node)
  (league : string) (report : dict (list string))
  (matchup : string) (players : list string) :
  outcome (scan_live_web requests_get html_parser league) = inr report ->
  In (matchup, players) report ->
  In (Printed ("⚔️  " ++ matchup))
     (trace (scan_live_web requests_get html_parser league))
  /\ Forall (fun p => In (Printed ("   🚨 " ++ p))
                         (trace (scan_live_web requests_get html_parser league)))
            players.
Proof.
  intros Hout Hin. rewrite scan_live_web_outcome in Hout.
  destruct (fetch_injuries requests_get html_parser league) as [t r] eqn:E.
  simpl in Hout. subst r. destruct report as [| mp report]; [easy |].
  rewrite (scan_live_web_found _ _ league t mp report E). unfold trace, fst.
  assert (Hlines : forall ev, In ev (report_lines (mp :: report)) ->
                              In ev (Printed (nl ++ "🌐 --- [LIVE WEB SCAN] Protocol Initiated: " ++ league ++ " ---")
                                       :: t
                                       ++ Printed (nl ++ "📋 Rotowire Live Injury Report:")
                                       :: report_lines (mp :: report)
                                       ++ Printed (nl ++ "💡 Alpha Analysis based on Live Data:")
                                       :: alert_lines (mp :: report) ++ [])).
  { intros ev Hev. right. apply in_or_app. right. right.
    apply in_or_app. now left. }
  split.
  - apply Hlines. unfold report_lines. apply in_flat_map.
    exists (matchup, players). split; [assumption | now left].
  - apply Forall_forall. intros p Hp. apply Hlines.
    unfold report_lines. apply in_flat_map.
    exists (matchup, players). split; [assumption |]. right.
    apply in_flat_map. exists p. split; [assumption | now left].
Qed.

Lemma report_is_printed_witness :
  In (Printed "⚔️  DEN vs PHX")
     (trace (scan_live_web (Sample.answers 200) (Sample.parsed Slate.page) "NBA")).
Proof.
  refine (proj1 (report_is_printed
                   (Sample.answers 200) (Sample.parsed Slate.page) "NBA"
                   [("LAL vs BOS", ["LeBron James (OUT)"]);
                    ("DEN vs PHX", ["Jamal Murray (GTD)"; "Devin Booker (DOUBTFUL)"])]
                   "DEN vs PHX" ["Jamal Murray (GTD)"; "Devin Booker (DOUBTFUL)"]
                   _ _)).
  - reflexivity.
  - right. left. reflexivity.
Defined.

(* ================================================================== *)
(** ** The entry point *)

Section MainFacts.
Variable DataFrame : Type.
Variable read_csv_eff : string -> exn + DataFrame.
Variable empty_frame : DataFrame.
Variable requests_get :
  string -> list (string * string) -> Z -> exn + response.
Variable html_parser : string -> exn + list node.

Lemma init_eq (path : string) :
  init DataFrame read_csv_eff empty_frame path
  = (csv_lines DataFrame read_csv_eff path,
     inr (Edge path (Some (table DataFrame read_csv_eff empty_frame path)) [])).
Proof.
  unfold init, _load_csv_data, csv_lines, table, try_except_all, bind, lift.
  simpl. now destruct (read_csv_eff path).
Qed.

Lemma scan_eq (self : TheEdgeSystem DataFrame) (league : string)
      (t : list event) (report : dict (list string)) :
  scan_live_web requests_get html_parser league = (t, inr report) ->
  scan DataFrame requests_get html_parser self league
  = (t, inr (Edge (csv_path self) (data_2026 self) report)).
Proof.
  intros H. unfold scan, bind, ret. rewrite H. now rewrite app_nil_r.
Qed.

Lemma scan_raised (self : TheEdgeSystem DataFrame) (league : string)
      (t : list event) (e : exn) :
  scan_live_web requests_get html_parser league = (t, inl e) ->
  scan DataFrame requests_get html_parser self league = (t, inl e).
Proof. intros H. unfold scan, bind. now rewrite H. Qed.

(** The program after an NBA scan that returned, and after one that did
    not. *)
Lemma main_goes_on (t1 t2 : list event) (r1 : dict (list string))
      (o2 : exn + dict (list string)) :
  scan_live_web requests_get html_parser "NBA" = (t1, inr r1) ->
  scan_live_web requests_get html_parser "NHL" = (t2, o2) ->
  main DataFrame read_csv_eff empty_frame requests_get html_parser
  = (csv_lines DataFrame read_csv_eff "nba_2026_totals.csv"
       ++ t1 ++ Printed (nl ++ "-------------------" ++ nl) :: t2,
     match o2 with
     | inl e => inl e
     | inr r2 =>
         inr (Edge "nba_2026_totals.csv"
                   (Some (table DataFrame read_csv_eff empty_frame
                                "nba_2026_totals.csv")) r2)
     end).
Proof.
  intros H1 H2. unfold main. rewrite init_eq. unfold bind at 1.
  rewrite (scan_eq _ "NBA" t1 r1 H1). unfold bind at 1.
  unfold bind, print. destruct o2 as [e | r2].
  - rewrite (scan_raised _ "NHL" t2 e H2). reflexivity.
  - rewrite (scan_eq _ "NHL" t2 r2 H2). reflexivity.
Qed.

Lemma main_stops (t1 : list event) (e : exn) :
  scan_live_web requests_get html_parser "NBA" = (t1, inl e) ->
  main DataFrame read_csv_eff empty_frame requests_get html_parser
  = (csv_lines DataFrame read_csv_eff "nba_2026_totals.csv" ++ t1, inl e).
Proof.
  intros H1. unfold main. rewrite init_eq. unfold bind at 1.
  rewrite (scan_raised _ "NBA" t1 e H1). reflexivity.
Qed.
End MainFacts.



(** X13: when the program ends normally, the object it leaves holds the
    path of the table, as [data_2026] the table that was loaded, or the
    empty table when loading failed, never [None], and as [live_injuries]
    what the NHL fetch returned and nothing of the NBA report. *)
Theorem main_final_state
  (DataFrame : Type) (read_csv_eff : string -> exn + DataFrame)
  (empty_frame : DataFrame)
  (requests_get : string -> list (string * string) -> Z -> exn + response)
  (html_parser : string -> exn + list node)
  (edge : TheEdgeSystem DataFrame) :
  outcome (main DataFrame read_csv_eff empty_frame requests_get html_parser)
  = inr edge ->
  csv_path edge = "nba_2026_totals.csv"
  /\ data_2026 edge
     = Some match read_csv_eff "nba_2026_totals.csv" with
            | inr df => df
            | inl _ => empty_frame
            end
  /\ outcome (fetch_injuries requests_get html_parser "NHL")
     = inr (live_injuries edge).
Proof.
  pose proof (scan_live_web_outcome requests_get html_parser "NHL") as Ho.
  destruct (scan_live_web requests_get html_parser "NBA") as [t1 [e | r1]] eqn:H1.
  - rewrite (main_stops _ read_csv_eff empty_frame _ _ t1 e H1). discriminate.
  - destruct (scan_live_web requests_get html_parser "NHL") as [t2 o2] eqn:H2.
    rewrite (main_goes_on _ read_csv_eff empty_frame _ _ t1 t2 r1 o2 H1 H2).
    destruct o2 as [e | r2]; [discriminate |].
    intros [= <-]. simpl in Ho. now repeat split.
Qed.

Lemma main_final_state_witness :
  outcome (fetch_injuries Slate.nba_only (Sample.parsed Slate.page) "NHL")
  = inr [].
Proof.
  refine (proj2 (proj2 (main_final_state
                          unit Slate.no_csv tt Slate.nba_only
                          (Sample.parsed Slate.page)
                          (Edge "nba_2026_totals.csv" (Some tt) []) _))).
  reflexivity.
Defined.

(* ================================================================== *)
(** ** A status tag outside any list item *)

(** The nodes that a traversal reaches do not depend on where it starts
    from; only the ancestor chains do. *)
Lemma here_descendants (n : node) :
  forall up up', map here (descendants up n) = map here (descendants up' n).
Proof.
  induction n as [s | name classes contents IH] using node_induction;
    intros up up'; [reflexivity |].
  cbn [descendants].
  generalize (Tag name classes contents). intros m.
  induction IH as [| c cs Hc _ IHcs]; [reflexivity |].
  cbn [flat_map]. rewrite !map_app. cbn [map here].
  now rewrite IHcs, (Hc (m :: up) (m :: up')).
Qed.

Lemma find_first_filter (p q : node -> bool) (l : list located) (a : node) :
  List.find p (map here l) = Some a ->
  q a = true ->
  exists d rest,
    filter (fun d => p (here d) && q (here d)) l = d :: rest /\ here d = a.
Proof.
  induction l as [| x l IH]; cbn [map List.find filter]; [discriminate |].
  destruct (p (here x)) eqn:E.
  - intros [= <-] Hq. rewrite Hq. cbn. eauto.
  - intros H Hq. cbn. exact (IH H Hq).
Qed.

(** X14: when a qualifying status tag has no [li] ancestor, its nearest
    [div] ancestor is the lineup box itself and the first anchor of the box
    is a team anchor, the descriptor carries the first team identifier in
    the place of a player name. *)
Theorem name_falls_back_to_first_team
  (box t : located) (a : node) (acc : list string) :
  In (status_text t) statuses ->
  find_parent "li" t = None ->
  find_parent "div" t = Some (here box) ->
  find "a" (here box) = Some a ->
  has_class ["lineup__team"] a = true ->
  scan_status acc t
  = acc ++ [descriptor (nth 0 (teams box) "") (status_text t)].
Proof.
  intros Hq Hli Hdiv Ha Hcls.
  assert (Hname : player_name (here box) = Str.strip (text a))
    by (unfold player_name; now rewrite Ha).
  unfold find in Ha.
  rewrite (here_descendants (here box) [] (parents box)) in Ha.
  destruct (find_first_filter _ (has_class ["lineup__team"]) _ _ Ha Hcls)
    as (d & rest & Hfilter & Hd).
  assert (Hteam : nth 0 (teams box) "" = Str.strip (text a)).
  { unfold teams. rewrite fold_append_map. unfold team_divs, find_all.
    rewrite Hfilter. cbn [app map nth]. now rewrite Hd. }
  unfold scan_status, player_node.
  rewrite (proj2 (mem_In _ _) Hq), Hli, Hdiv, Hname, Hteam. reflexivity.
Qed.

Lemma name_falls_back_to_first_team_witness :
  scan_status [] Bare.status = ["LAL (OUT)"]
  /\ extract (soup_of Bare.page) = [("LAL vs BOS", ["LAL (OUT)"])].
Proof.
  split; [| reflexivity].
  refine (name_falls_back_to_first_team
            Bare.box Bare.status
            (Tag "a" ["lineup__team"; "is-visit"] [NavigableString (" LAL" ++ nl)])
            [] _ _ _ _ _).
  - vm_compute. left. reflexivity.
  - reflexivity.
  - reflexivity.
  - reflexivity.
  - reflexivity.
Defined.

Lemma identifiers_are_trimmed_witness :
  Forall (fun id => ~ starts_blank id /\ ~ ends_blank id)
         (teams Sample.padded_box)
  /\ ~ starts_blank (player_name (Tag "li" [] [])).
Proof.
  split.
  - exact (proj1 (identifiers_are_trimmed Sample.padded_box (Tag "li" [] []))).
  - exact (proj1 (proj2 (identifiers_are_trimmed Sample.padded_box
                                                 (Tag "li" [] [])))).
Defined.
